(** * RPCServer: the dispatch and reply protocol of [rabbitmq/rpc_server.py]

    A shallow embedding of [RPCServer.serve], of the [reply] closure it
    builds and of the example method [echo].  The broker channel is a
    write-only device for [serve]: the embedding records, in order, every
    call made on it, next to the logger calls and the handler bodies that
    are entered. *)

From stdpp Require Import gmap strings list fin_maps.
From Stdlib Require Import ZArith.

Set Warnings "-register-all".
Open Scope string_scope.
Open Scope list_scope.

(** ** Values *)

(** What [decode_json] returns and [encode_json] accepts.  An object is a
    Python [dict] with [str] keys. *)
Inductive json : Type :=
  | JNull
  | JBool (b : bool)
  | JInt (n : Z)
  | JFloat (literal : string)
  | JStr (s : string)
  | JArr (items : list json)
  | JObj (members : gmap string json).

(** The wire body of a message. *)
Abbreviation bytes := (list Byte.byte).

(** The exceptions that can leave [serve]. *)
Inductive exn : Type :=
  | DecodeError
  | TypeError
  | ValueError
  | KeyError.

Inductive result (A : Type) : Type :=
  | Ok (a : A)
  | Raise (e : exn).
Arguments Ok {A} a.
Arguments Raise {A} e.

(** ** Effects *)

(** Of a call of the logger the level is recorded, not the text. *)
Inductive level : Type := DEBUG | WARNING.

Inductive event : Type :=
  | log (lvl : level)
  | basic_publish (exchange routing_key : string)
                  (correlation_id : option string) (body : bytes)
  | basic_ack (delivery_tag : Z)
  | enter (callee : string) (kwargs : gmap string json).

(** A computation yields a value or raises, and leaves the events it
    performed, oldest first. *)
Definition M (A : Type) : Type := result A * list event.

Definition ret {A} (a : A) : M A := (Ok a, []).
Definition raise {A} (e : exn) : M A := (Raise e, []).
Definition emit (e : event) : M unit := (Ok tt, [e]).
Definition lift {A} (r : result A) : M A := (r, []).

Definition bind {A B} (k : A -> M B) (m : M A) : M B :=
  match m with
  | (Ok a, t) => let '(r, t') := k a in (r, t ++ t')
  | (Raise e, t) => (Raise e, t)
  end.

#[global] Instance M_ret : MRet M := @ret.
#[global] Instance M_bind : MBind M := @bind.

Definition outcome {A} (m : M A) : result A := fst m.
Definition trace {A} (m : M A) : list event := snd m.

(** ** The Python operations [serve] relies on *)

Fixpoint is_substring (needle hay : string) : bool :=
  String.prefix needle hay ||
  match hay with
  | EmptyString => false
  | String _ rest => is_substring needle rest
  end.

(** [key in container], for a [str] key. *)
Definition contains (key : string) (container : json) : result bool :=
  match container with
  | JObj members => Ok (bool_decide (is_Some (members !! key)))
  | JArr items =>
      Ok (existsb (fun item => match item with
                               | JStr s => bool_decide (s = key)
                               | _ => false
                               end) items)
  | JStr s => Ok (is_substring key s)
  | _ => Raise TypeError
  end.

(** [container[key]], for a [str] key. *)
Definition getitem (container : json) (key : string) : result json :=
  match container with
  | JObj members =>
      match members !! key with
      | Some v => Ok v
      | None => Raise KeyError
      end
  | _ => Raise TypeError
  end.

(** *** Callables and their signatures *)

Inductive kind : Type :=
  | POSITIONAL_ONLY
  | POSITIONAL_OR_KEYWORD
  | VAR_POSITIONAL
  | KEYWORD_ONLY
  | VAR_KEYWORD.

#[global] Instance kind_eq_dec : EqDecision kind.
Proof. solve_decision. Defined.

Record Param : Type := {
  name : string;
  param_kind : kind;
  has_default : bool
}.

(** A plain parameter, as in [def echo(self, msg, reply_fun)]. *)
Definition param (n : string) : Param :=
  {| name := n; param_kind := POSITIONAL_OR_KEYWORD; has_default := false |}.

(** What a method does once its parameters are bound: it receives the
    keyword arguments taken from the request and the reply closure. *)
Definition method_body : Type := gmap string json -> (json -> M unit) -> M unit.

(** [parameters] is what [inspect.signature] shows: it leaves out the
    parameters that already have their positional value, the [self] of a
    bound method.  [filled] holds the names of those that a keyword could
    still address.  [introspectable] is false for a callable on which
    [inspect.signature] raises [ValueError]. *)
Record callable : Type := {
  repr : string;
  filled : list string;
  parameters : list Param;
  introspectable : bool;
  code : method_body
}.

(** The value of an attribute of the server instance. *)
Inductive attribute : Type :=
  | None_
  | Object
  | Callable (f : callable).

(** [getattr(self, name, None)] once [name] is known to be a [str]. *)
Definition getattr (self : gmap string attribute) (attr : string) : attribute :=
  default None_ (self !! attr).

(** [inspect.signature(method_op).parameters], as the names in order. *)
Definition signature (method_op : attribute) : result (list string) :=
  match method_op with
  | Callable f =>
      if introspectable f then Ok (name <$> parameters f) else Raise ValueError
  | _ => Raise TypeError
  end.

(** Binding of a call made with keyword arguments only.  A keyword goes
    to the parameter of that name; the name of a parameter that has its
    value already is refused ("got multiple values"); any other keyword
    needs a catch-all parameter. *)
Definition takes_keyword (filled : list string) (ps : list Param)
    (k : string) : bool :=
  existsb (fun p => bool_decide (name p = k) &&
                    (bool_decide (param_kind p = POSITIONAL_OR_KEYWORD) ||
                     bool_decide (param_kind p = KEYWORD_ONLY))) ps
  || (bool_decide (k ∉ filled) &&
      existsb (fun p => bool_decide (param_kind p = VAR_KEYWORD)) ps).

Definition bound (keywords : list string) (p : Param) : bool :=
  match param_kind p with
  | VAR_POSITIONAL | VAR_KEYWORD => true
  | POSITIONAL_ONLY => has_default p
  | POSITIONAL_OR_KEYWORD | KEYWORD_ONLY =>
      has_default p || bool_decide (name p ∈ keywords)
  end.

Definition binds (filled : list string) (ps : list Param)
    (keywords : list string) : bool :=
  forallb (takes_keyword filled ps) keywords && forallb (bound keywords) ps.

(** ** The server *)

Definition METHOD_ATTRIBUTE : string := "method".
Definition ARGS_ATTRIBUTE : string := "args".

(** The [method] and [props] arguments of [serve], as far as it reads them. *)
Record Deliver : Type := { delivery_tag : Z }.
Record BasicProperties : Type := {
  reply_to : option string;
  correlation_id : option string
}.

(** The dict [{"error": text}]. *)
Definition error (text : string) : json := JObj {[ "error" := JStr text ]}.

Section Serve.

(** [rabbitmq.protocol] is not part of the sources at hand: the two
    codec functions are taken as given.  [decode_json] may raise. *)
Variable decode_json : bytes -> result json.
Variable encode_json : json -> bytes.

(** The attributes of the instance [serve] is a method of. *)
Variable self : gmap string attribute.

(** The closure [reply] of [serve], with the variables it captures. *)
Definition reply (method : Deliver) (routing_key_reply : string)
    (request_id : option string) (msg : json) : M unit :=
  emit (log DEBUG);;
  emit (basic_publish "" routing_key_reply request_id (encode_json msg));;
  emit (basic_ack (delivery_tag method)).

(** The call of [method_op] with the keyword arguments of [args] and
    with [reply_fun=reply]. *)
Definition call (method_op : callable) (args : json)
    (reply_fun : json -> M unit) : M unit :=
  match args with
  | JObj kwargs =>
      if bool_decide (is_Some (kwargs !! "reply_fun")) then raise TypeError
      else if binds (filled method_op) (parameters method_op)
                    ((map_to_list kwargs).*1 ++ ["reply_fun"])
      then emit (enter (repr method_op) kwargs);;
           code method_op kwargs reply_fun
      else raise TypeError
  | _ => raise TypeError
  end.

(** The loop over [signature.parameters]; [continue] is what follows the
    loop, skipped when the loop returns from [serve]. *)
Fixpoint for_arg_name (reply : json -> M unit) (args : json)
    (names : list string) (continue : M unit) : M unit :=
  match names with
  | [] => continue
  | arg_name :: rest =>
      missing ← (if bool_decide (arg_name ≠ "reply_fun")
                 then found ← lift (contains arg_name args); mret (negb found)
                 else mret false);
      if (missing : bool) then
        emit (log WARNING);;
        reply (error ("Message received does not specify argument " +:+
                      arg_name +:+ " in attribute " +:+ ARGS_ATTRIBUTE +:+ "."))
      else for_arg_name reply args rest continue
  end.

Definition serve (method : Deliver) (props : BasicProperties)
    (body : bytes) : M unit :=
  body_json ← lift (decode_json body);
  emit (log DEBUG);;
  match reply_to props with
  | None =>
      emit (log WARNING);;
      emit (basic_ack (delivery_tag method))
  | Some routing_key_reply =>
      emit (log DEBUG);;
      let request_id := correlation_id props in
      emit (log DEBUG);;
      let reply := reply method routing_key_reply request_id in
      has_method ← lift (contains METHOD_ATTRIBUTE body_json);
      if negb has_method then
        emit (log WARNING);;
        reply (error ("Attribute " +:+ METHOD_ATTRIBUTE +:+ " must be specified."))
      else
      server_method ← lift (getitem body_json METHOD_ATTRIBUTE);
      match server_method with
      | JStr server_method =>
          let method_op := getattr self server_method in
          match method_op with
          | None_ =>
              emit (log WARNING);;
              reply (error ("Method specified does not exist: " +:+
                            server_method +:+ "."))
          | _ =>
              has_args ← lift (contains ARGS_ATTRIBUTE body_json);
              if negb has_args then
                emit (log WARNING);;
                reply (error ("Message received does not have arguments in attribute "
                              +:+ ARGS_ATTRIBUTE +:+ "."))
              else
              args ← lift (getitem body_json ARGS_ATTRIBUTE);
              parameters ← lift (signature method_op);
              match method_op with
              | Callable f =>
                  if bool_decide ("reply_fun" ∉ parameters) then
                    let error_msg :=
                      "Method " +:+ repr f +:+
                      " must declare a parameter 'reply_fun' that must be invoked to reply to an invokation." in
                    emit (log WARNING);;
                    reply (error error_msg)
                  else
                    for_arg_name reply args parameters (call f args reply)
              | _ => raise TypeError
              end
          end
      | _ => raise TypeError
      end
  end.

End Serve.

(** ** The class [RPCServer] *)

(** [RPCServer.echo]. *)
Definition echo_body : method_body := fun kwargs reply_fun =>
  match kwargs !! "msg" with
  | Some msg => reply_fun msg
  | None => raise TypeError
  end.

Definition bound_method (qualname obj : string) : string :=
  "<bound method " +:+ qualname +:+ " of " +:+ obj +:+ ">".

Section RPCServer.

(** How the instance prints. *)
Variable obj : string.

(** The attributes that come from [Rabbitmq] and [object]. *)
Variable inherited : gmap string attribute.

(** [__init__], [setup], [start_serving] and [serve] act on the broker
    connection; what they do when called is left open. *)
Variable broker_side : string -> method_body.

Definition def (function : string) (ps : list Param) (b : method_body)
    : attribute :=
  Callable {| repr := bound_method ("RPCServer." +:+ function) obj;
              filled := ["self"];
              parameters := ps;
              introspectable := true;
              code := b |}.

Definition RPCServer_methods : gmap string attribute :=
  {[ "__init__" :=
       def "__init__"
           [param "ip"; param "port"; param "username"; param "password";
            param "vhost"; param "exchange"; param "type";
            {| name := "ssl"; param_kind := POSITIONAL_OR_KEYWORD;
               has_default := true |}]
           (broker_side "__init__");
     "setup" :=
       def "setup" [param "routing_key"; param "queue_name"]
           (broker_side "setup");
     "start_serving" :=
       def "start_serving" [] (broker_side "start_serving");
     "serve" :=
       def "serve" [param "ch"; param "method"; param "props"; param "body"]
           (broker_side "serve");
     "echo" :=
       def "echo" [param "msg"; param "reply_fun"] echo_body ]}.

(** An instance: [__init__] stores the logger in [self._l]; the methods
    of the class come before what is inherited. *)
Definition RPCServer : gmap string attribute :=
  <["_l" := Object]> (RPCServer_methods ∪ inherited).

End RPCServer.

(** ** Observations on a trace *)

Definition is_publish (e : event) : bool :=
  match e with basic_publish _ _ _ _ => true | _ => false end.
Definition is_ack (e : event) : bool :=
  match e with basic_ack _ => true | _ => false end.
Definition is_enter (e : event) : bool :=
  match e with enter _ _ => true | _ => false end.

(** The calls made on the channel, in order. *)
Definition transport (t : list event) : list event :=
  List.filter (fun e => is_publish e || is_ack e) t.
Definition publishes (t : list event) : list event := List.filter is_publish t.
Definition acks (t : list event) : list event := List.filter is_ack t.
(** The method bodies that were entered. *)
Definition entered (t : list event) : list event := List.filter is_enter t.

(** What an error path of [serve] leaves behind once the message is
    decoded and has a reply address: the three debug lines, the warning,
    and one call of [reply]. *)
Definition error_reply (encode_json : json -> bytes) (method : Deliver)
    (R : string) (request_id : option string) (text : string) : M unit :=
  (Ok tt,
   [log DEBUG; log DEBUG; log DEBUG; log WARNING; log DEBUG;
    basic_publish "" R request_id (encode_json (error text));
    basic_ack (delivery_tag method)]).

(** [arg_name] passes the test of the loop. *)
Definition passes (args : json) (arg_name : string) : Prop :=
  arg_name ≠ "reply_fun" -> contains arg_name args = Ok true.

(** The request passed every check that precedes the call. *)
Definition validated (self : gmap string attribute) (body_json : json)
    (method_op : callable) (args : json) : Prop :=
  exists members server_method,
    body_json = JObj members /\
    members !! "method" = Some (JStr server_method) /\
    getattr self server_method = Callable method_op /\
    members !! "args" = Some args /\
    introspectable method_op = true /\
    "reply_fun" ∈ name <$> parameters method_op /\
    Forall (passes args) (name <$> parameters method_op).

(** The four ways [serve] can end. *)
Section Outcomes.

Variable decode_json : bytes -> result json.
Variable encode_json : json -> bytes.
Variable self : gmap string attribute.
Variable method : Deliver.
Variable props : BasicProperties.
Variable body : bytes.


Definition raised_early : Prop :=
  exists e t, serve decode_json encode_json self method props body
      = (Raise e, t) /\
    (t = [] \/ t = [log DEBUG; log DEBUG; log DEBUG]).

Definition ignored : Prop :=
  reply_to props = None /\
  serve decode_json encode_json self method props body
      = (Ok tt, [log DEBUG; log WARNING; basic_ack (delivery_tag method)]).

Definition refused : Prop :=
  exists R text,
    reply_to props = Some R /\
    serve decode_json encode_json self method props body
      = error_reply encode_json method R (correlation_id props) text.

Definition called : Prop :=
  exists R body_json method_op kwargs,
    reply_to props = Some R /\
    decode_json body = Ok body_json /\
    validated self body_json method_op (JObj kwargs) /\
    serve decode_json encode_json self method props body
      = (emit (log DEBUG);; emit (log DEBUG);; emit (log DEBUG);;
           emit (enter (repr method_op) kwargs);;
           code method_op kwargs
             (reply encode_json method R (correlation_id props))).

End Outcomes.

(** ** A setting for the examples *)

(** An encoder that keeps the text of a string and of an error object. *)
Definition text_bytes (msg : json) : bytes :=
  match msg with
  | JStr s => String.list_byte_of_string s
  | JObj members =>
      match members !! "error" with
      | Some (JStr s) => String.list_byte_of_string s
      | _ => []
      end
  | _ => []
  end.

(** A payload that decodes to [body_json], and one that does not decode. *)
Definition arrives (body_json : json) : bytes -> result json :=
  fun _ => Ok body_json.
Definition garbled : bytes -> result json := fun _ => Raise DecodeError.

Definition plain_server : gmap string attribute :=
  RPCServer "<RPCServer object>" ∅ (fun _ _ _ => mret tt).

(** A subclass with a method [def double(self, x, reply_fun)] that replies
    [[x, x]], and with an attribute [state = None]. *)
Definition double_body : method_body := fun kwargs reply_fun =>
  match kwargs !! "x" with
  | Some x => reply_fun (JArr [x; x])
  | None => raise TypeError
  end.

Definition subclass_server : gmap string attribute :=
  <[ "state" := None_ ]>
    (<[ "double" :=
          Callable {| repr := "<bound method Doubler.double of <Doubler object>>";
                      filled := ["self"];
                      parameters := [param "x"; param "reply_fun"];
                      introspectable := true;
                      code := double_body |} ]> plain_server).

Definition delivery : Deliver := {| delivery_tag := 7 |}.
Definition expects_reply : BasicProperties :=
  {| reply_to := Some "R"; correlation_id := Some "C" |}.
Definition expects_nothing : BasicProperties :=
  {| reply_to := None; correlation_id := Some "C" |}.

Definition request (server_method : string) (args : gmap string json) : json :=
  JObj {[ "method" := JStr server_method; "args" := JObj args ]}.

(** ** Handlers as subclasses write them *)

(** A method declared like [echo]: every parameter is an ordinary one,
    without default value. *)
Definition plain (method_op : callable) : Prop :=
  Forall (fun p => param_kind p = POSITIONAL_OR_KEYWORD /\ has_default p = false)
         (parameters method_op).

(** The keywords of the call made by [serve]: the keys of [args], then
    [reply_fun]. *)
Definition keywords (kwargs : gmap string json) : list string :=
  (map_to_list kwargs).*1 ++ ["reply_fun"].

(** ** Properties *)

Lemma RPCServer_lookup obj inherited broker_side attr v :
  attr ≠ "_l" ->
  RPCServer_methods obj broker_side !! attr = Some v ->
  getattr (RPCServer obj inherited broker_side) attr = v.
Proof.
  intros Hl Hv. unfold getattr, RPCServer.
  rewrite lookup_insert_ne by done.
  by rewrite (lookup_union_Some_l _ _ _ _ Hv).
Qed.


Section Paths.

Variable decode_json : bytes -> result json.
Variable encode_json : json -> bytes.
Variable self : gmap string attribute.
Variable method : Deliver.
Variable props : BasicProperties.
Variable body : bytes.

Let run := serve decode_json encode_json self method props body.

Lemma serve_undecodable e :
  decode_json body = Raise e -> run = (Raise e, []).
Proof. intros H. subst run. unfold serve. by rewrite H. Qed.

Lemma serve_no_reply_to body_json :
  decode_json body = Ok body_json ->
  reply_to props = None ->
  run = (Ok tt, [log DEBUG; log WARNING; basic_ack (delivery_tag method)]).
Proof. intros H HR. subst run. unfold serve. by rewrite H, HR. Qed.

Variable R : string.
Hypothesis HR : reply_to props = Some R.

Lemma serve_not_a_container body_json :
  decode_json body = Ok body_json ->
  contains METHOD_ATTRIBUTE body_json = Raise TypeError ->
  run = (Raise TypeError, [log DEBUG; log DEBUG; log DEBUG]).
Proof. intros H Hc. subst run. unfold serve. rewrite H, HR. cbn. by rewrite Hc. Qed.

Lemma serve_no_method body_json :
  decode_json body = Ok body_json ->
  contains METHOD_ATTRIBUTE body_json = Ok false ->
  run = error_reply encode_json method R (correlation_id props)
          "Attribute method must be specified.".
Proof. intros H Hc. subst run. unfold serve. rewrite H, HR. cbn. by rewrite Hc. Qed.

Variable members : gmap string json.
Hypothesis Hdecode : decode_json body = Ok (JObj members).

Lemma serve_method_not_str v :
  members !! "method" = Some v ->
  (forall s, v ≠ JStr s) ->
  run = (Raise TypeError, [log DEBUG; log DEBUG; log DEBUG]).
Proof.
  intros Hm Hv. subst run. unfold serve. rewrite Hdecode, HR. cbn.
  unfold METHOD_ATTRIBUTE. rewrite Hm. cbn.
  destruct v; try reflexivity. by destruct (Hv s).
Qed.

Variable server_method : string.
Hypothesis Hmethod : members !! "method" = Some (JStr server_method).

Lemma serve_unknown_method :
  getattr self server_method = None_ ->
  run = error_reply encode_json method R (correlation_id props)
          ("Method specified does not exist: " +:+ server_method +:+ ".").
Proof.
  intros Ha. subst run. unfold serve. rewrite Hdecode, HR. cbn.
  unfold METHOD_ATTRIBUTE. rewrite Hmethod. cbn. by rewrite Ha.
Qed.

Lemma serve_no_args :
  getattr self server_method ≠ None_ ->
  members !! "args" = None ->
  run = error_reply encode_json method R (correlation_id props)
          "Message received does not have arguments in attribute args.".
Proof.
  intros Ha Hargs. subst run. unfold serve. rewrite Hdecode, HR. cbn.
  unfold METHOD_ATTRIBUTE, ARGS_ATTRIBUTE. rewrite Hmethod. cbn.
  destruct (getattr self server_method); [done | |]; by rewrite Hargs.
Qed.

Variable args : json.
Hypothesis Hargs : members !! "args" = Some args.

Lemma serve_not_callable :
  getattr self server_method = Object ->
  run = (Raise TypeError, [log DEBUG; log DEBUG; log DEBUG]).
Proof.
  intros Ha. subst run. unfold serve. rewrite Hdecode, HR. cbn.
  unfold METHOD_ATTRIBUTE, ARGS_ATTRIBUTE. rewrite Hmethod. cbn.
  rewrite Ha, Hargs. reflexivity.
Qed.

Variable method_op : callable.
Hypothesis Hattr : getattr self server_method = Callable method_op.

Lemma serve_no_signature :
  introspectable method_op = false ->
  run = (Raise ValueError, [log DEBUG; log DEBUG; log DEBUG]).
Proof.
  intros Hi. subst run. unfold serve. rewrite Hdecode, HR. cbn.
  unfold METHOD_ATTRIBUTE, ARGS_ATTRIBUTE. rewrite Hmethod. cbn.
  rewrite Hattr, Hargs. cbn. by rewrite Hi.
Qed.

Hypothesis Hsig : introspectable method_op = true.

Lemma serve_no_reply_fun :
  "reply_fun" ∉ name <$> parameters method_op ->
  run = error_reply encode_json method R (correlation_id props)
          ("Method " +:+ repr method_op +:+
           " must declare a parameter 'reply_fun' that must be invoked to reply to an invokation.").
Proof.
  intros Hn. subst run. unfold serve. rewrite Hdecode, HR. cbn.
  unfold METHOD_ATTRIBUTE, ARGS_ATTRIBUTE. rewrite Hmethod. cbn.
  rewrite Hattr, Hargs. cbn. rewrite Hsig. cbn.
  by rewrite bool_decide_eq_true_2.
Qed.

Lemma serve_checks_arguments :
  "reply_fun" ∈ name <$> parameters method_op ->
  run =
    (emit (log DEBUG);; emit (log DEBUG);; emit (log DEBUG);;
     let reply := reply encode_json method R (correlation_id props) in
     for_arg_name reply args (name <$> parameters method_op)
       (call method_op args reply)).
Proof.
  intros Hn. subst run. unfold serve. rewrite Hdecode, HR. cbn.
  unfold METHOD_ATTRIBUTE, ARGS_ATTRIBUTE. rewrite Hmethod. cbn.
  rewrite Hattr, Hargs. cbn. rewrite Hsig. cbn.
  rewrite bool_decide_eq_false_2 by (by intros ?).
  by destruct (for_arg_name _ _ _ _) as [[] ?].
Qed.

End Paths.

(** *** The monad *)

Lemma bind_ret {A B} (a : A) (k : A -> M B) : (mret a ≫= k) = k a.
Proof. unfold mret, M_ret, ret, mbind, M_bind, bind. by destruct (k a). Qed.

Lemma bind_lift_ok {A B} (a : A) (k : A -> M B) : (lift (Ok a) ≫= k) = k a.
Proof. exact (bind_ret a k). Qed.

Lemma trace_emit {A} (e : event) (k : M A) :
  trace (emit e;; k) = e :: trace k.
Proof.
  unfold trace, emit, mbind, M_bind, bind. by destruct k.
Qed.

(** *** The loop over the declared parameters *)


Section Loop.

Variable reply : json -> M unit.
Variable args : json.
Variable continue : M unit.

Lemma for_arg_name_passes names :
  Forall (passes args) names ->
  for_arg_name reply args names continue = continue.
Proof.
  induction 1 as [|arg_name rest Hp _ IH]; [done|]. cbn [for_arg_name].
  destruct (decide (arg_name = "reply_fun")) as [->|Hne].
  - rewrite bool_decide_eq_false_2 by (by intros ?). by rewrite bind_ret.
  - rewrite bool_decide_eq_true_2 by done.
    rewrite (Hp Hne), bind_lift_ok. cbn [negb]. by rewrite bind_ret.
Qed.

Lemma for_arg_name_app names rest :
  Forall (passes args) names ->
  for_arg_name reply args (names ++ rest) continue
    = for_arg_name reply args rest continue.
Proof.
  induction 1 as [|arg_name names' Hp _ IH]; [done|].
  cbn [app for_arg_name].
  destruct (decide (arg_name = "reply_fun")) as [->|Hne].
  - rewrite bool_decide_eq_false_2 by (by intros ?). by rewrite bind_ret.
  - rewrite bool_decide_eq_true_2 by done.
    rewrite (Hp Hne), bind_lift_ok. cbn [negb]. by rewrite bind_ret.
Qed.

(** The first declared parameter that [args] lacks ends the loop, and
    [serve], with the error that names it. *)
Lemma for_arg_name_missing names arg_name rest :
  Forall (passes args) names ->
  arg_name ≠ "reply_fun" ->
  contains arg_name args = Ok false ->
  for_arg_name reply args (names ++ arg_name :: rest) continue
    = (emit (log WARNING);;
       reply (error ("Message received does not specify argument " +:+
                     arg_name +:+ " in attribute args."))).
Proof.
  intros Hp Hne Hc. rewrite for_arg_name_app by done. cbn [for_arg_name].
  rewrite bool_decide_eq_true_2 by done.
  rewrite Hc, bind_lift_ok. cbn [negb]. by rewrite bind_ret.
Qed.

(** The loop ends in one of three ways. *)
Lemma for_arg_name_cases names :
  (Forall (passes args) names /\
   for_arg_name reply args names continue = continue) \/
  (exists text, for_arg_name reply args names continue
                = (emit (log WARNING);; reply (error text))) \/
  (exists e, for_arg_name reply args names continue = (Raise e, [])).
Proof.
  induction names as [|arg_name rest IH]; [left; by split|].
  cbn [for_arg_name].
  destruct (decide (arg_name = "reply_fun")) as [->|Hne].
  - rewrite bool_decide_eq_false_2 by (by intros ?). rewrite bind_ret.
    destruct IH as [[Hp Heq]|IH]; [left|by right].
    split; [|done]. constructor; [by intros ?|done].
  - rewrite bool_decide_eq_true_2 by done.
    destruct (contains arg_name args) as [[]|e] eqn:Hc.
    + rewrite bind_lift_ok. cbn [negb]. rewrite bind_ret.
      destruct IH as [[Hp Heq]|IH]; [left|by right].
      split; [|done]. constructor; [by intros ?|done].
    + rewrite bind_lift_ok. cbn [negb]. rewrite bind_ret.
      right; left. by eexists.
    + right; right. by exists e.
Qed.

End Loop.

(** *** The call of the method *)

Lemma takes_keyword_undeclared (filled : list string) (ps : list Param)
    (k : string) :
  k ∉ name <$> ps ->
  Forall (fun p => param_kind p ≠ VAR_KEYWORD) ps ->
  takes_keyword filled ps k = false.
Proof.
  intros Hk Hv. unfold takes_keyword. apply orb_false_iff. split.
  - apply not_true_iff_false. intros (p & Hp & Hb)%existsb_exists.
    apply andb_true_iff in Hb as [Hn%bool_decide_eq_true _].
    apply Hk, list_elem_of_fmap. exists p. by rewrite <- list_elem_of_In in Hp.
  - apply andb_false_iff. right.
    apply not_true_iff_false. intros (p & Hp & Hb%bool_decide_eq_true)%existsb_exists.
    rewrite Forall_forall in Hv. apply (Hv p); [|done].
    by rewrite list_elem_of_In.
Qed.

Section Call.

Variable method_op : callable.
Variable reply_fun : json -> M unit.

Lemma call_not_a_mapping args :
  (forall kwargs, args ≠ JObj kwargs) ->
  call method_op args reply_fun = (Raise TypeError, []).
Proof. intros H. destruct args; try done. by destruct (H members). Qed.

(** A key of [args] that no parameter takes makes the call fail before
    the body is entered. *)
Lemma call_unexpected_keyword kwargs k :
  is_Some (kwargs !! k) ->
  takes_keyword (filled method_op) (parameters method_op) k = false ->
  call method_op (JObj kwargs) reply_fun = (Raise TypeError, []).
Proof.
  intros [v Hv] Hk. unfold call. case_bool_decide; [done|].
  assert (binds (filled method_op) (parameters method_op)
            ((map_to_list kwargs).*1 ++ ["reply_fun"]) = false) as ->; [|done].
  unfold binds. apply andb_false_iff. left.
  apply not_true_iff_false. intros Hall. rewrite forallb_forall in Hall.
  rewrite Hall in Hk; [done|].
  apply list_elem_of_In, elem_of_app. left.
  apply list_elem_of_fmap. exists (k, v). split; [done|].
  by apply elem_of_map_to_list.
Qed.

(** A key of [args] that names a parameter which has its value already,
    as [self] has in a bound method, makes the call fail, with or without
    a catch-all parameter. *)
Lemma call_filled_keyword kwargs k :
  is_Some (kwargs !! k) ->
  k ∈ filled method_op ->
  k ∉ name <$> parameters method_op ->
  call method_op (JObj kwargs) reply_fun = (Raise TypeError, []).
Proof.
  intros Hsome Hfilled Hk. apply (call_unexpected_keyword kwargs k); [done|].
  unfold takes_keyword. apply orb_false_iff. split.
  - apply not_true_iff_false. intros (p & Hp & Hb)%existsb_exists.
    apply andb_true_iff in Hb as [Hn%bool_decide_eq_true _].
    apply Hk, list_elem_of_fmap. exists p. by rewrite <- list_elem_of_In in Hp.
  - by rewrite bool_decide_eq_false_2 by (by intros ?).
Qed.

(** Whatever [args] is, the call either fails to bind, leaving no
    event, or enters the body. *)
Lemma call_cases args :
  call method_op args reply_fun = (Raise TypeError, []) \/
  exists kwargs, args = JObj kwargs /\
    call method_op args reply_fun
      = (emit (enter (repr method_op) kwargs);;
         code method_op kwargs reply_fun).
Proof.
  destruct args; try by left. unfold call.
  case_bool_decide; [by left|].
  destruct (binds _ _); [right; by eexists|by left].
Qed.

End Call.

(** *** Every way through [serve] *)


Section Cases.

Variable decode_json : bytes -> result json.
Variable encode_json : json -> bytes.
Variable self : gmap string attribute.
Variable method : Deliver.
Variable props : BasicProperties.
Variable body : bytes.



Lemma serve_cases :
  raised_early decode_json encode_json self method props body \/
  ignored decode_json encode_json self method props body \/
  refused decode_json encode_json self method props body \/
  called decode_json encode_json self method props body.
Proof.
  destruct (decode_json body) as [body_json|e] eqn:Hdec; cycle 1.
  { left. exists e, []. split; [by apply serve_undecodable|by left]. }
  destruct (reply_to props) as [R|] eqn:HR; cycle 1.
  { right; left. split; [done|]. by eapply serve_no_reply_to. }
  assert (Hearly : forall e, serve decode_json encode_json self method props body
      = (Raise e, [log DEBUG; log DEBUG; log DEBUG])
                             -> raised_early decode_json encode_json self method props body).
  { intros e He. exists e. eexists. split; [done|by right]. }
  assert (Hrefused : forall text,
             serve decode_json encode_json self method props body
      = error_reply encode_json method R (correlation_id props) text
             -> refused decode_json encode_json self method props body).
  { intros text He. exists R, text. by rewrite <- HR. }
  destruct (contains METHOD_ATTRIBUTE body_json) as [[]|e] eqn:Hc; cycle 1.
  { right; right; left. eapply Hrefused. by eapply serve_no_method. }
  { left. destruct body_json; try discriminate Hc;
      eapply Hearly; by eapply serve_not_a_container. }
  destruct body_json as [| | | |s|items|members].
  1-4: discriminate Hc.
  1-2: left; apply (Hearly TypeError); unfold serve;
       rewrite Hdec, HR; cbn -[contains]; by rewrite Hc.
  cbn in Hc. injection Hc as Hc. apply bool_decide_eq_true in Hc as [v Hm].
  assert ((exists s, v = JStr s) \/ (forall s, v ≠ JStr s))
    as [[server_method ->]|Hv] by (destruct v; eauto).
  2: { left. eapply Hearly. by eapply serve_method_not_str. }
  destruct (getattr self server_method) as [| |method_op] eqn:Ha.
  { right; right; left. eapply Hrefused. by eapply serve_unknown_method. }
  all: destruct (members !! "args") as [args|] eqn:Hargs.
  2,4: right; right; left; eapply Hrefused;
       eapply serve_no_args; [done..|by rewrite Ha|done].
  { left. eapply Hearly. by eapply serve_not_callable. }
  destruct (introspectable method_op) eqn:Hi; cycle 1.
  { left. eapply Hearly. by eapply serve_no_signature. }
  destruct (decide ("reply_fun" ∈ name <$> parameters method_op)) as [Hr|Hr];
    cycle 1.
  { right; right; left. eapply Hrefused. by eapply serve_no_reply_fun. }
  pose proof (serve_checks_arguments decode_json encode_json self method
                props body R HR members Hdec server_method Hm args Hargs
                method_op Ha Hi Hr) as Hrun.
  destruct (for_arg_name_cases
              (reply encode_json method R (correlation_id props)) args
              (call method_op args
                 (reply encode_json method R (correlation_id props)))
              (name <$> parameters method_op))
    as [[Hp Hloop]|[[text Hloop]|[e Hloop]]]; cbv zeta in Hrun;
    rewrite Hloop in Hrun.
  - destruct (call_cases method_op
                (reply encode_json method R (correlation_id props)) args)
      as [Hcall|(kwargs & -> & Hcall)]; rewrite Hcall in Hrun.
    + left. apply (Hearly TypeError). exact Hrun.
    + right; right; right. exists R, (JObj members), method_op, kwargs.
      repeat split; try done. by exists members, server_method.
  - right; right; left. apply (Hrefused text). exact Hrun.
  - left. apply (Hearly e). exact Hrun.
Qed.

End Cases.

(** *** When a method is entered *)

Lemma contains_raises key container e :
  contains key container = Raise e -> e = TypeError.
Proof. destruct container; cbn; congruence. Qed.

Lemma outcome_emit {A} (e : event) (k : M A) :
  outcome (emit e;; k) = outcome k.
Proof. unfold outcome, emit, mbind, M_bind, bind. by destruct k. Qed.

Lemma keywords_elem (kwargs : gmap string json) (k : string) :
  k ∈ keywords kwargs <-> is_Some (kwargs !! k) \/ k = "reply_fun".
Proof.
  unfold keywords. rewrite elem_of_app, list_elem_of_fmap, elem_of_cons.
  split.
  - intros [([k' v] & -> & Hkv)|[->|[]%elem_of_nil]]; [left|by right].
    exists v. by apply elem_of_map_to_list.
  - intros [[v Hv]| ->]; [left|right; by left].
    exists (k, v). split; [done|]. by apply elem_of_map_to_list.
Qed.

Lemma takes_keyword_plain (filled : list string) (ps : list Param)
    (k : string) :
  Forall (fun p => param_kind p = POSITIONAL_OR_KEYWORD /\ has_default p = false)
         ps ->
  takes_keyword filled ps k = true <-> k ∈ name <$> ps.
Proof.
  intros Hplain. split.
  - intros Ht. destruct (decide (k ∈ name <$> ps)) as [|Hn]; [done|].
    rewrite takes_keyword_undeclared in Ht; [done|done|].
    eapply Forall_impl; [exact Hplain|]. intros p [-> _]. discriminate.
  - intros (p & -> & Hp)%list_elem_of_fmap.
    unfold takes_keyword. apply orb_true_iff. left.
    apply existsb_exists. exists p. split; [by apply list_elem_of_In|].
    rewrite Forall_forall in Hplain. destruct (Hplain p Hp) as [-> _].
    by rewrite bool_decide_eq_true_2.
Qed.

(** For a method whose parameters are all ordinary and without default,
    a keyword call binds exactly when the keywords are the parameters. *)
Lemma binds_plain (filled : list string) (ps : list Param)
    (kws : list string) :
  Forall (fun p => param_kind p = POSITIONAL_OR_KEYWORD /\ has_default p = false)
         ps ->
  binds filled ps kws = true <-> (forall k, k ∈ kws <-> k ∈ name <$> ps).
Proof.
  intros Hplain. unfold binds.
  rewrite andb_true_iff, !forallb_forall. split.
  - intros [Htakes Hbound] k. split.
    + intros Hk%list_elem_of_In.
      by apply (takes_keyword_plain filled), Htakes.
    + intros (p & -> & Hp)%list_elem_of_fmap.
      pose proof (Hbound p (proj1 (list_elem_of_In _ _) Hp)) as Hb.
      rewrite Forall_forall in Hplain. destruct (Hplain p Hp) as [Hk Hd].
      unfold bound in Hb. rewrite Hk, Hd in Hb.
      by apply bool_decide_eq_true in Hb.
  - intros Heq. split.
    + intros k Hk%list_elem_of_In.
      by apply (takes_keyword_plain filled), Heq.
    + intros p Hp%list_elem_of_In.
      rewrite Forall_forall in Hplain. destruct (Hplain p Hp) as [Hk Hd].
      unfold bound. rewrite Hk, Hd. apply bool_decide_eq_true_2, Heq.
      apply list_elem_of_fmap. by exists p.
Qed.

Lemma call_enters method_op reply_fun kwargs :
  kwargs !! "reply_fun" = None ->
  binds (filled method_op) (parameters method_op) (keywords kwargs) = true ->
  call method_op (JObj kwargs) reply_fun
    = (emit (enter (repr method_op) kwargs);;
       code method_op kwargs reply_fun).
Proof.
  intros Hk Hb. unfold call.
  rewrite bool_decide_eq_false_2 by (rewrite Hk; by intros [? ?]).
  unfold keywords in Hb. by rewrite Hb.
Qed.

Lemma call_fails method_op reply_fun kwargs :
  is_Some (kwargs !! "reply_fun") \/
  binds (filled method_op) (parameters method_op) (keywords kwargs) = false ->
  call method_op (JObj kwargs) reply_fun = (Raise TypeError, []).
Proof.
  intros H. unfold call. case_bool_decide; [done|].
  destruct H as [?|Hb]; [done|]. unfold keywords in Hb. by rewrite Hb.
Qed.

(** The names are all accepted by the loop, or there is a first one at
    which the loop stops. *)
Lemma names_split (args : json) (names : list string) :
  Forall (passes args) names \/
  exists pre x rest,
    names = pre ++ x :: rest /\ Forall (passes args) pre /\
    x ≠ "reply_fun" /\
    (contains x args = Ok false \/ contains x args = Raise TypeError).
Proof.
  induction names as [|x rest IH]; [left; apply Forall_nil_2|].
  destruct (decide (x = "reply_fun")) as [->|Hne].
  - destruct IH as [Hp|(pre & y & rest' & -> & Hp & Hy & Hc)].
    + left. apply Forall_cons_2; [by intros ?|done].
    + right. exists ("reply_fun" :: pre), y, rest'.
      repeat split; [|done..]. apply Forall_cons_2; [by intros ?|done].
  - destruct (contains x args) as [[]|e] eqn:Hc.
    + destruct IH as [Hp|(pre & y & rest' & -> & Hp & Hy & Hcy)].
      * left. apply Forall_cons_2; [by intros ?|done].
      * right. exists (x :: pre), y, rest'.
        repeat split; [|done..]. apply Forall_cons_2; [by intros ?|done].
    + right. exists [], x, rest. repeat split; [apply Forall_nil_2|done|].
      by left.
    + right. exists [], x, rest. repeat split; [apply Forall_nil_2|done|].
      right. by rewrite (contains_raises _ _ _ Hc) in Hc.
Qed.

Lemma for_arg_name_raises reply args continue names arg_name rest :
  Forall (passes args) names ->
  arg_name ≠ "reply_fun" ->
  contains arg_name args = Raise TypeError ->
  for_arg_name reply args (names ++ arg_name :: rest) continue
    = (Raise TypeError, []).
Proof.
  intros Hp Hne Hc. rewrite for_arg_name_app by done. cbn [for_arg_name].
  rewrite bool_decide_eq_true_2 by done. by rewrite Hc.
Qed.

Section Entered.

Variable decode_json : bytes -> result json.
Variable encode_json : json -> bytes.
Variable self : gmap string attribute.
Variable method : Deliver.
Variable props : BasicProperties.
Variable body : bytes.

(** What is known once a method has been entered. *)
Lemma entered_inv :
  entered (trace (serve decode_json encode_json self method props body)) ≠ [] ->
  exists R body_json method_op kwargs,
    reply_to props = Some R /\
    decode_json body = Ok body_json /\
    validated self body_json method_op (JObj kwargs) /\
    kwargs !! "reply_fun" = None /\
    binds (filled method_op) (parameters method_op) (keywords kwargs) = true /\
    serve decode_json encode_json self method props body
      = (emit (log DEBUG);; emit (log DEBUG);; emit (log DEBUG);;
         emit (enter (repr method_op) kwargs);;
         code method_op kwargs
           (reply encode_json method R (correlation_id props))).
Proof.
  intros Hentered.
  destruct (serve_cases decode_json encode_json self method props body)
    as [(e & t & Hrun & Ht)|[[_ Hrun]|[(R & text & _ & Hrun)|Hcalled]]].
  - rewrite Hrun in Hentered. by destruct Ht as [->| ->].
  - by rewrite Hrun in Hentered.
  - by rewrite Hrun in Hentered.
  - destruct Hcalled as (R & body_json & method_op & kwargs
                         & HR & Hdec & Hv & Hrun).
    exists R, body_json, method_op, kwargs.
    assert (kwargs !! "reply_fun" = None /\
            binds (filled method_op) (parameters method_op) (keywords kwargs) = true)
      as [Hk Hb]; [|done].
    destruct Hv as (members & server_method & -> & Hm & Ha & Hargs
                    & Hi & Hr & Hp).
    destruct (kwargs !! "reply_fun") as [v|] eqn:Hk;
      [|destruct (binds (filled method_op) (parameters method_op) (keywords kwargs)) eqn:Hb;
        [done|]];
      exfalso; apply Hentered;
      erewrite serve_checks_arguments by done; cbv zeta;
      rewrite for_arg_name_passes by done;
      (rewrite call_fails; [done|]).
    + left. by rewrite Hk.
    + by right.
Qed.

End Entered.

(** *** [echo] on an [RPCServer] *)

Lemma serve_echo decode_json encode_json obj inherited broker_side method
    props body R members msg :
  decode_json body = Ok (JObj members) ->
  reply_to props = Some R ->
  members !! "method" = Some (JStr "echo") ->
  members !! "args" = Some (JObj {[ "msg" := msg ]}) ->
  serve decode_json encode_json (RPCServer obj inherited broker_side)
    method props body
  = (Ok tt,
     [log DEBUG; log DEBUG; log DEBUG;
      enter (bound_method "RPCServer.echo" obj) {[ "msg" := msg ]};
      log DEBUG;
      basic_publish "" R (correlation_id props) (encode_json msg);
      basic_ack (delivery_tag method)]).
Proof.
  intros Hdec HR Hm Hargs.
  erewrite serve_checks_arguments; [| done | exact Hdec | exact Hm
    | exact Hargs | by apply RPCServer_lookup | reflexivity
    | cbn; rewrite !elem_of_cons; auto ].
  reflexivity.
Qed.

(** [echo] is entered with [args] being [{"msg": msg}] and nothing else. *)
Lemma echo_entered decode_json encode_json obj inherited broker_side method
    props body members :
  decode_json body = Ok (JObj members) ->
  members !! "method" = Some (JStr "echo") ->
  entered (trace (serve decode_json encode_json
                    (RPCServer obj inherited broker_side) method props body))
    ≠ [] ->
  exists R msg,
    reply_to props = Some R /\
    members !! "args" = Some (JObj {[ "msg" := msg ]}).
Proof.
  intros Hdec Hm
    (R & body_json & method_op & kwargs & HR & Hdec' & Hv & Hk & Hb & _)
    %entered_inv.
  rewrite Hdec in Hdec'. injection Hdec' as <-.
  destruct Hv as (members' & server_method' & [= <-] & Hm' & Ha & Hargs
                  & _ & _ & _).
  rewrite Hm in Hm'. injection Hm' as <-.
  erewrite RPCServer_lookup in Ha by (done || reflexivity).
  injection Ha as <-. cbn in Hb.
  assert (forall k, k ∈ keywords kwargs <-> k ∈ ["msg"; "reply_fun"]) as Heq.
  { apply (binds_plain ["self"] [param "msg"; param "reply_fun"]); [|done].
    apply Forall_cons_2; [by split|apply Forall_cons_2; [by split|]].
    apply Forall_nil_2. }
  assert ("msg" ∈ keywords kwargs) as Hin by (apply Heq; by left).
  apply keywords_elem in Hin as [[msg Hmsg]|Hin]; [|discriminate].
  exists R, msg. split; [done|]. rewrite Hargs. do 2 f_equal.
  apply map_eq. intros k. destruct (decide (k = "msg")) as [->|Hne].
  - by rewrite Hmsg, lookup_singleton_eq.
  - rewrite lookup_singleton_ne by done. apply eq_None_not_Some.
    intros Hsome.
    assert (k ∈ ["msg"; "reply_fun"]) as Hk'.
    { apply Heq, keywords_elem. by left. }
    rewrite !elem_of_cons, elem_of_nil in Hk'.
    destruct Hk' as [->|[->|[]]]; [done|].
    rewrite Hk in Hsome. by destruct Hsome.
Qed.

(** *** After the method is resolved *)

(** What [serve] can do once [getattr] has returned something else than
    [None]. *)
Lemma serve_resolved_cases decode_json encode_json self method props body
    R members server_method :
  decode_json body = Ok (JObj members) ->
  reply_to props = Some R ->
  members !! "method" = Some (JStr server_method) ->
  getattr self server_method ≠ None_ ->
  let run := serve decode_json encode_json self method props body in
  let refuse := error_reply encode_json method R (correlation_id props) in
  (exists e, outcome run = Raise e) \/
  run = refuse "Message received does not have arguments in attribute args." \/
  (exists method_op,
     getattr self server_method = Callable method_op /\
     run = refuse ("Method " +:+ repr method_op +:+
                   " must declare a parameter 'reply_fun' that must be invoked to reply to an invokation.")) \/
  (exists x,
     run = refuse ("Message received does not specify argument " +:+ x +:+
                   " in attribute args.")) \/
  entered (trace run) ≠ [].
Proof.
  intros Hdec HR Hm Hne run refuse. subst run refuse.
  destruct (members !! "args") as [args|] eqn:Hargs; cycle 1.
  { right; left. by eapply serve_no_args. }
  destruct (getattr self server_method) as [| |method_op] eqn:Ha; [done| |].
  { left. exists TypeError. by erewrite serve_not_callable. }
  destruct (introspectable method_op) eqn:Hi; cycle 1.
  { left. exists ValueError. by erewrite serve_no_signature. }
  destruct (decide ("reply_fun" ∈ name <$> parameters method_op)) as [Hr|Hr];
    cycle 1.
  { right; right; left. exists method_op. split; [done|].
    by eapply serve_no_reply_fun. }
  erewrite serve_checks_arguments by done. cbv zeta.
  destruct (names_split args (name <$> parameters method_op))
    as [Hp|(pre & x & rest & -> & Hp & Hx & [Hc|Hc])].
  - rewrite for_arg_name_passes by done.
    destruct (call_cases method_op
                (reply encode_json method R (correlation_id props)) args)
      as [->|(kwargs & _ & ->)].
    + left. by exists TypeError.
    + do 4 right. by rewrite !trace_emit.
  - do 3 right. left. exists x. by erewrite for_arg_name_missing.
  - left. exists TypeError. by erewrite for_arg_name_raises.
Qed.

Lemma error_reply_inj (encode_json : json -> bytes) method R request_id
    text text' :
  (forall t t', encode_json (error t) = encode_json (error t') -> t = t') ->
  error_reply encode_json method R request_id text
    = error_reply encode_json method R request_id text' ->
  text = text'.
Proof.
  intros Hinj Heq. unfold error_reply in Heq. injection Heq as Heq.
  by apply Hinj.
Qed.

(** ** The reply closure and [echo] *)

(** C5: one call of the reply closure publishes the encoded message on
    the default exchange, to the captured routing key and with the
    captured correlation id, and acknowledges the captured delivery
    afterwards; nothing else reaches the channel. *)
Theorem reply_publish_then_ack (encode_json : json -> bytes) (method : Deliver)
    (routing_key_reply : string) (request_id : option string) (msg : json) :
  outcome (reply encode_json method routing_key_reply request_id msg) = Ok tt /\
  transport (trace (reply encode_json method routing_key_reply request_id msg))
    = [basic_publish "" routing_key_reply request_id (encode_json msg);
       basic_ack (delivery_tag method)].
Proof. split; reflexivity. Qed.

(** C3: on an [RPCServer], the request
    [{"method": "echo", "args": {"msg": "hi"}}] arriving with reply
    address [R] makes the channel see one publish to [R], carrying the
    correlation id of the request and the encoding of ["hi"], followed by
    one acknowledgement of the delivery, and nothing more. *)
Theorem echo_hi decode_json encode_json obj inherited broker_side
    method props body R :
  decode_json body = Ok (request "echo" {[ "msg" := JStr "hi" ]}) ->
  reply_to props = Some R ->
  let run := serve decode_json encode_json
               (RPCServer obj inherited broker_side) method props body in
  outcome run = Ok tt /\
  transport (trace run)
    = [basic_publish "" R (correlation_id props) (encode_json (JStr "hi"));
       basic_ack (delivery_tag method)] /\
  length (publishes (trace run)) = 1 /\
  length (acks (trace run)) = 1.
Proof.
  intros Hdec HR run. subst run.
  erewrite serve_checks_arguments; [| done | exact Hdec | reflexivity
    | reflexivity | by apply RPCServer_lookup | reflexivity
    | cbn; set_solver ].
  repeat split; reflexivity.
Qed.

Lemma echo_hi_witness :
  arrives (request "echo" {[ "msg" := JStr "hi" ]}) []
    = Ok (request "echo" {[ "msg" := JStr "hi" ]}) /\
  reply_to expects_reply = Some "R" /\
  transport (trace (serve (arrives (request "echo" {[ "msg" := JStr "hi" ]}))
                      text_bytes plain_server delivery expects_reply []))
    = [basic_publish "" "R" (Some "C") (text_bytes (JStr "hi")); basic_ack 7].
Proof.
  split; [reflexivity|]. split; [reflexivity|].
  apply (echo_hi (arrives (request "echo" {[ "msg" := JStr "hi" ]})) text_bytes
           "<RPCServer object>" ∅ (fun _ _ _ => mret tt)
           delivery expects_reply [] "R"); reflexivity.
Defined.

(** ** Keys of [args] that the method does not declare *)

(** C1, as stated, fails: with the key ["extra"] next to ["msg"] the call
    of [echo] raises [TypeError] and the channel sees nothing, while the
    same request without ["extra"] is published and acknowledged. *)
Lemma echo_extra_key_raises :
  let run args := serve (arrives (request "echo" args)) text_bytes
                    plain_server delivery expects_reply [] in
  let hi : gmap string json := {[ "msg" := JStr "hi" ]} in
  outcome (run (<[ "extra" := JStr "ignored" ]> hi)) = Raise TypeError /\
  transport (trace (run (<[ "extra" := JStr "ignored" ]> hi))) = [] /\
  transport (trace (run hi))
    = [basic_publish "" "R" (Some "C") (text_bytes (JStr "hi")); basic_ack 7].
Proof. repeat split; vm_compute; reflexivity. Qed.

(** C1, amended: a key of [args] that the method does not declare is not
    refused by the checks of [serve], but it is passed on in the call:
    when the method has no [**kwargs] parameter the call raises
    [TypeError] before the body is entered, and nothing is published or
    acknowledged. *)
Theorem undeclared_key_fails_the_call decode_json encode_json self
    method props body R members server_method method_op kwargs k :
  decode_json body = Ok (JObj members) ->
  reply_to props = Some R ->
  members !! "method" = Some (JStr server_method) ->
  getattr self server_method = Callable method_op ->
  members !! "args" = Some (JObj kwargs) ->
  introspectable method_op = true ->
  "reply_fun" ∈ name <$> parameters method_op ->
  Forall (passes (JObj kwargs)) (name <$> parameters method_op) ->
  Forall (fun p => param_kind p ≠ VAR_KEYWORD) (parameters method_op) ->
  is_Some (kwargs !! k) ->
  k ∉ name <$> parameters method_op ->
  let run := serve decode_json encode_json self method props body in
  outcome run = Raise TypeError /\
  transport (trace run) = [] /\
  entered (trace run) = [].
Proof.
  intros Hdec HR Hm Ha Hargs Hi Hr Hp Hv Hk Hn run. subst run.
  erewrite serve_checks_arguments by done. cbv zeta.
  rewrite for_arg_name_passes by done.
  erewrite call_unexpected_keyword;
    [| done | by apply takes_keyword_undeclared ].
  repeat split; reflexivity.
Qed.

Lemma undeclared_key_fails_the_call_witness :
  let args : gmap string json :=
    {[ "msg" := JStr "hi"; "extra" := JStr "ignored" ]} in
  let run := serve (arrives (request "echo" args)) text_bytes
               plain_server delivery expects_reply [] in
  outcome run = Raise TypeError /\
  transport (trace run) = [] /\
  entered (trace run) = [].
Proof.
  intros args run.
  apply (undeclared_key_fails_the_call
           (arrives (request "echo" args)) text_bytes plain_server delivery
           expects_reply [] "R"
           {[ "method" := JStr "echo"; "args" := JObj args ]} "echo"
           (Build_callable (bound_method "RPCServer.echo" "<RPCServer object>")
              ["self"] [param "msg"; param "reply_fun"] true echo_body)
           args "extra").
  - reflexivity.
  - reflexivity.
  - reflexivity.
  - reflexivity.
  - reflexivity.
  - reflexivity.
  - cbn. set_solver.
  - apply Forall_cons_2; [|apply Forall_cons_2; [|apply Forall_nil_2]].
    + intros _. reflexivity.
    + intros H. by destruct H.
  - repeat constructor; discriminate.
  - by exists (JStr "ignored").
  - cbn. rewrite !not_elem_of_cons. repeat split; [discriminate..|].
    apply not_elem_of_nil.
Defined.

(** ** Acknowledgement *)

Lemma entered_called decode_json encode_json self method props body :
  called decode_json encode_json self method props body ->
  entered (trace (serve decode_json encode_json self method props body)) ≠ [].
Proof.
  intros (R & body_json & method_op & kwargs & _ & _ & _ & ->).
  by rewrite !trace_emit.
Qed.

(** C2, as stated, fails: a payload that does not decode is never
    acknowledged, and neither is a request whose call fails to bind. *)
Lemma delivery_never_acknowledged :
  acks (trace (serve garbled text_bytes plain_server delivery
                 expects_reply [])) = [] /\
  acks (trace (serve (arrives (request "echo"
                                 {[ "msg" := JStr "hi";
                                    "extra" := JStr "ignored" ]}))
                 text_bytes plain_server delivery expects_reply [])) = [].
Proof. split; vm_compute; reflexivity. Qed.

(** C2, amended: when [serve] enters no method body, it acknowledges the
    delivery exactly once if it returns (no reply address, or any of the
    error replies), and performs nothing on the channel if it raises (an
    undecodable payload, a failed call).  Once a body is entered, [serve]
    itself publishes and acknowledges nothing: the outcome and the channel
    calls of the run are those of the method body, to which acknowledging
    is left through the reply closure; [echo], once entered, acknowledges
    exactly once. *)
Theorem acknowledgement_by_path decode_json encode_json self method props
    body :
  let run := serve decode_json encode_json self method props body in
  (entered (trace run) = [] ->
   (outcome run = Ok tt ->
    acks (trace run) = [basic_ack (delivery_tag method)]) /\
   (forall e, outcome run = Raise e -> transport (trace run) = [])) /\
  (entered (trace run) ≠ [] ->
   exists R body_json method_op kwargs,
     reply_to props = Some R /\
     decode_json body = Ok body_json /\
     validated self body_json method_op (JObj kwargs) /\
     let handler := code method_op kwargs
                      (reply encode_json method R (correlation_id props)) in
     outcome run = outcome handler /\
     transport (trace run) = transport (trace handler) /\
     acks (trace run) = acks (trace handler)) /\
  (forall obj inherited broker_side members,
     self = RPCServer obj inherited broker_side ->
     decode_json body = Ok (JObj members) ->
     members !! "method" = Some (JStr "echo") ->
     entered (trace run) ≠ [] ->
     acks (trace run) = [basic_ack (delivery_tag method)]).
Proof.
  intros run. split; [|split].
  - intros Hentered.
    destruct (serve_cases decode_json encode_json self method props body)
      as [(e & t & Hrun & Ht)|[[_ Hrun]|[(R & text & _ & Hrun)|Hcalled]]].
    + subst run. rewrite Hrun. split; [discriminate|]. intros _ _.
      by destruct Ht as [->| ->].
    + subst run. rewrite Hrun. split; [done|discriminate].
    + subst run. rewrite Hrun. split; [done|discriminate].
    + by destruct (entered_called _ _ _ _ _ _ Hcalled).
  - intros (R & body_json & method_op & kwargs & HR & Hdec & Hv & _ & _ & Hrun)
      %entered_inv.
    exists R, body_json, method_op, kwargs.
    split; [done|]. split; [done|]. split; [done|].
    subst run. rewrite Hrun. rewrite !outcome_emit, !trace_emit.
    by repeat split.
  - intros obj inherited broker_side members -> Hdec Hm Hentered.
    destruct (echo_entered _ _ _ _ _ _ _ _ _ Hdec Hm Hentered)
      as (R & msg & HR & Hargs).
    subst run. by erewrite serve_echo.
Qed.

Lemma acknowledgement_by_path_witness :
  let run := serve (arrives (request "echo" ∅)) text_bytes plain_server
               delivery expects_nothing [] in
  let echoed := serve (arrives (request "echo" {[ "msg" := JStr "hi" ]}))
                  text_bytes plain_server delivery expects_reply [] in
  (entered (trace run) = [] /\
   outcome run = Ok tt /\
   acks (trace run) = [basic_ack 7]) /\
  (entered (trace echoed) ≠ [] /\
   acks (trace echoed) = [basic_ack 7]).
Proof.
  intros run echoed. split.
  - split; [reflexivity|]. split; [reflexivity|].
    destruct (acknowledgement_by_path
                (arrives (request "echo" ∅)) text_bytes plain_server
                delivery expects_nothing []) as [Hnone _].
    destruct (Hnone eq_refl) as [Hack _]. apply Hack. reflexivity.
  - assert (entered (trace echoed) ≠ []) as Hentered
      by (vm_compute; discriminate).
    split; [exact Hentered|].
    destruct (acknowledgement_by_path
                (arrives (request "echo" {[ "msg" := JStr "hi" ]})) text_bytes
                plain_server delivery expects_reply []) as (_ & _ & Hecho).
    apply (Hecho "<RPCServer object>" ∅ (fun _ _ _ => mret tt)
             {[ "method" := JStr "echo";
                "args" := JObj {[ "msg" := JStr "hi" ]} ]});
      [reflexivity|reflexivity|reflexivity|exact Hentered].
Defined.

(** ** A delivery without reply address *)

(** C8, as stated, fails in its last part: a request that lacks [method]
    arrives with a reply address, is answered, and enters no method. *)
Lemma refused_request_enters_no_method :
  let run := serve (arrives (JObj {[ "args" := JObj ∅ ]})) text_bytes
               plain_server delivery expects_reply [] in
  reply_to expects_reply = Some "R" /\
  length (publishes (trace run)) = 1 /\
  entered (trace run) = [].
Proof. repeat split; vm_compute; reflexivity. Qed.

(** C8, amended: when the payload decodes and the reply address is
    absent, [serve] acknowledges the delivery once, publishes nothing and
    enters no method. *)
Theorem no_reply_to_acknowledged decode_json encode_json self method props
    body body_json :
  decode_json body = Ok body_json ->
  reply_to props = None ->
  let run := serve decode_json encode_json self method props body in
  outcome run = Ok tt /\
  transport (trace run) = [basic_ack (delivery_tag method)] /\
  publishes (trace run) = [] /\
  entered (trace run) = [].
Proof.
  intros Hdec HR run. subst run.
  by rewrite (serve_no_reply_to _ _ _ _ _ _ _ Hdec HR).
Qed.

Lemma no_reply_to_acknowledged_witness :
  let run := serve (arrives (request "echo" {[ "msg" := JStr "hi" ]}))
               text_bytes plain_server delivery expects_nothing [] in
  transport (trace run) = [basic_ack 7] /\
  publishes (trace run) = [] /\
  entered (trace run) = [].
Proof.
  intros run.
  apply (no_reply_to_acknowledged
           (arrives (request "echo" {[ "msg" := JStr "hi" ]})) text_bytes
           plain_server delivery expects_nothing []
           (request "echo" {[ "msg" := JStr "hi" ]})); reflexivity.
Defined.

(** ** The error replies *)

(** C6, as stated, fails: the text that is replied names the attribute
    without quotes. *)
Lemma missing_method_text_unquoted :
  let run := serve (arrives (JObj {[ "args" := JObj ∅ ]})) text_bytes
               plain_server delivery expects_reply [] in
  publishes (trace run)
    = [basic_publish "" "R" (Some "C")
         (text_bytes (error "Attribute method must be specified."))] /\
  publishes (trace run)
    ≠ [basic_publish "" "R" (Some "C")
         (text_bytes (error "Attribute 'method' must be specified."))].
Proof. split; vm_compute; [reflexivity|discriminate]. Qed.

(** C6, amended: a decoded request without the key [method], arriving
    with a reply address, gets exactly one reply, the encoding of
    [{"error": "Attribute method must be specified."}], with the
    correlation id of the request; the reply closure then acknowledges the
    delivery, and no method is entered. *)
Theorem missing_method_reply decode_json encode_json self method props body
    R members :
  decode_json body = Ok (JObj members) ->
  reply_to props = Some R ->
  members !! "method" = None ->
  let run := serve decode_json encode_json self method props body in
  outcome run = Ok tt /\
  transport (trace run)
    = [basic_publish "" R (correlation_id props)
         (encode_json (error "Attribute method must be specified."));
       basic_ack (delivery_tag method)] /\
  entered (trace run) = [].
Proof.
  intros Hdec HR Hm run. subst run.
  erewrite serve_no_method; [done..|].
  cbn. unfold METHOD_ATTRIBUTE. by rewrite Hm.
Qed.

Lemma missing_method_reply_witness :
  let run := serve (arrives (JObj {[ "args" := JObj ∅ ]})) text_bytes
               plain_server delivery expects_reply [] in
  outcome run = Ok tt /\
  transport (trace run)
    = [basic_publish "" "R" (Some "C")
         (text_bytes (error "Attribute method must be specified."));
       basic_ack 7] /\
  entered (trace run) = [].
Proof.
  intros run.
  apply (missing_method_reply (arrives (JObj {[ "args" := JObj ∅ ]}))
           text_bytes plain_server delivery expects_reply [] "R"
           {[ "args" := JObj ∅ ]}); reflexivity.
Defined.

(** C7, as stated, fails: the text that is replied names the attribute
    [args] without quotes. *)
Lemma missing_argument_text_unquoted :
  let run := serve (arrives (request "double" ∅)) text_bytes
               subclass_server delivery expects_reply [] in
  publishes (trace run)
    = [basic_publish "" "R" (Some "C")
         (text_bytes (error
            "Message received does not specify argument x in attribute args."))] /\
  publishes (trace run)
    ≠ [basic_publish "" "R" (Some "C")
         (text_bytes (error
            "Message received does not specify argument x in attribute 'args'."))].
Proof. split; vm_compute; [reflexivity|discriminate]. Qed.

(** C7, amended: when the first declared parameter that [args] lacks is
    [x], the reply is
    [{"error": "Message received does not specify argument x in attribute args."}]
    and no method is entered; and a method is entered only when the
    payload decodes, a reply address is given and every check has passed. *)
Theorem method_entered_only_when_validated decode_json encode_json self
    method props body :
  let run := serve decode_json encode_json self method props body in
  (forall R members server_method method_op args names x rest,
     decode_json body = Ok (JObj members) ->
     reply_to props = Some R ->
     members !! "method" = Some (JStr server_method) ->
     getattr self server_method = Callable method_op ->
     members !! "args" = Some args ->
     introspectable method_op = true ->
     "reply_fun" ∈ name <$> parameters method_op ->
     name <$> parameters method_op = names ++ x :: rest ->
     Forall (passes args) names ->
     x ≠ "reply_fun" ->
     contains x args = Ok false ->
     run = error_reply encode_json method R (correlation_id props)
             ("Message received does not specify argument " +:+ x +:+
              " in attribute args.") /\
     entered (trace run) = []) /\
  (entered (trace run) ≠ [] ->
   exists body_json method_op kwargs,
     decode_json body = Ok body_json /\
     is_Some (reply_to props) /\
     validated self body_json method_op (JObj kwargs)).
Proof.
  intros run. split.
  - intros R members server_method method_op args names x rest
      Hdec HR Hm Ha Hargs Hi Hr Hnames Hp Hx Hc.
    assert (run = error_reply encode_json method R (correlation_id props)
                    ("Message received does not specify argument " +:+ x +:+
                     " in attribute args.")) as ->; [|done].
    subst run. erewrite serve_checks_arguments by done. cbv zeta.
    rewrite Hnames. by erewrite for_arg_name_missing.
  - intros Hentered.
    destruct (serve_cases decode_json encode_json self method props body)
      as [(e & t & Hrun & Ht)|[[_ Hrun]|[(R & text & _ & Hrun)|Hcalled]]].
    + subst run. rewrite Hrun in Hentered. by destruct Ht as [->| ->].
    + subst run. by rewrite Hrun in Hentered.
    + subst run. by rewrite Hrun in Hentered.
    + destruct Hcalled as (R & body_json & method_op & kwargs
                           & HR & Hdec & Hv & _).
      exists body_json, method_op, kwargs. by rewrite HR.
Qed.

Lemma method_entered_only_when_validated_witness :
  let run := serve (arrives (request "double" ∅)) text_bytes
               subclass_server delivery expects_reply [] in
  run = error_reply text_bytes delivery "R" (Some "C")
          "Message received does not specify argument x in attribute args." /\
  entered (trace run) = [].
Proof.
  intros run.
  destruct (method_entered_only_when_validated
              (arrives (request "double" ∅)) text_bytes subclass_server
              delivery expects_reply []) as [Hmissing _].
  apply (Hmissing "R" {[ "method" := JStr "double"; "args" := JObj ∅ ]}
           "double"
           (Build_callable "<bound method Doubler.double of <Doubler object>>"
              ["self"] [param "x"; param "reply_fun"] true double_body)
           (JObj ∅) [] "x" ["reply_fun"]); try reflexivity.
  - cbn. rewrite !elem_of_cons. auto.
  - apply Forall_nil_2.
  - discriminate.
Defined.

(** ** The order of the checks *)

(** C4: for a decoded request with a reply address, the checks are made
    in the order method present, method resolvable, args present, each
    declared argument present (in the order of declaration); the first
    one that fails decides the single reply, whatever the later ones
    would have found. *)
Theorem first_failing_check_wins decode_json encode_json self method props
    body R members :
  decode_json body = Ok (JObj members) ->
  reply_to props = Some R ->
  let run := serve decode_json encode_json self method props body in
  let refuse := error_reply encode_json method R (correlation_id props) in
  (members !! "method" = None ->
   run = refuse "Attribute method must be specified.") /\
  (forall server_method,
     members !! "method" = Some (JStr server_method) ->
     getattr self server_method = None_ ->
     run = refuse ("Method specified does not exist: " +:+ server_method +:+ ".")) /\
  (forall server_method,
     members !! "method" = Some (JStr server_method) ->
     getattr self server_method ≠ None_ ->
     members !! "args" = None ->
     run = refuse "Message received does not have arguments in attribute args.") /\
  (forall server_method method_op args names x rest,
     members !! "method" = Some (JStr server_method) ->
     getattr self server_method = Callable method_op ->
     introspectable method_op = true ->
     "reply_fun" ∈ name <$> parameters method_op ->
     members !! "args" = Some args ->
     name <$> parameters method_op = names ++ x :: rest ->
     Forall (passes args) names ->
     x ≠ "reply_fun" ->
     contains x args = Ok false ->
     run = refuse ("Message received does not specify argument " +:+ x +:+
                   " in attribute args.")).
Proof.
  intros Hdec HR run refuse. subst run refuse. repeat split.
  - intros Hm. eapply serve_no_method; [done..|].
    cbn. unfold METHOD_ATTRIBUTE. by rewrite Hm.
  - intros server_method Hm Ha. by eapply serve_unknown_method.
  - intros server_method Hm Ha Hargs. by eapply serve_no_args.
  - intros server_method method_op args names x rest
      Hm Ha Hi Hr Hargs Hnames Hp Hx Hc.
    erewrite serve_checks_arguments by done. cbv zeta.
    rewrite Hnames. by erewrite for_arg_name_missing.
Qed.

Lemma first_failing_check_wins_witness :
  let run request :=
    serve (arrives request) text_bytes plain_server delivery
      expects_reply [] in
  let refuse := error_reply text_bytes delivery "R" (Some "C") in
  run (JObj {[ "method" := JStr "foo" ]})
    = refuse "Method specified does not exist: foo." /\
  run (JObj ∅) = refuse "Attribute method must be specified.".
Proof.
  intros run refuse. split.
  - destruct (first_failing_check_wins
                (arrives (JObj {[ "method" := JStr "foo" ]})) text_bytes
                plain_server delivery expects_reply [] "R"
                {[ "method" := JStr "foo" ]} eq_refl eq_refl)
      as (_ & Hunknown & _).
    apply (Hunknown "foo"); reflexivity.
  - destruct (first_failing_check_wins
                (arrives (JObj ∅)) text_bytes
                plain_server delivery expects_reply [] "R"
                ∅ eq_refl eq_refl)
      as (Hmissing & _).
    apply Hmissing. reflexivity.
Defined.

(** C9: after the check that [args] is present, and before the declared
    arguments are looked up in [args], a resolved method that declares no
    parameter [reply_fun] is refused with a reply that prints the method;
    the delivery is acknowledged and the method is not entered. *)
Theorem reply_fun_must_be_declared decode_json encode_json self method props
    body R members server_method method_op :
  decode_json body = Ok (JObj members) ->
  reply_to props = Some R ->
  members !! "method" = Some (JStr server_method) ->
  getattr self server_method = Callable method_op ->
  introspectable method_op = true ->
  "reply_fun" ∉ name <$> parameters method_op ->
  let run := serve decode_json encode_json self method props body in
  let refuse := error_reply encode_json method R (correlation_id props) in
  (members !! "args" = None ->
   run = refuse "Message received does not have arguments in attribute args.") /\
  (forall args,
     members !! "args" = Some args ->
     run = refuse ("Method " +:+ repr method_op +:+
                   " must declare a parameter 'reply_fun' that must be invoked to reply to an invokation.") /\
     acks (trace run) = [basic_ack (delivery_tag method)] /\
     entered (trace run) = []).
Proof.
  intros Hdec HR Hm Ha Hi Hr run refuse. subst run refuse. split.
  - intros Hargs. eapply serve_no_args; [done..| |done]. by rewrite Ha.
  - intros args Hargs. by erewrite serve_no_reply_fun.
Qed.

Lemma reply_fun_must_be_declared_witness :
  let run := serve (arrives (request "setup" ∅)) text_bytes plain_server
               delivery expects_reply [] in
  run = error_reply text_bytes delivery "R" (Some "C")
          "Method <bound method RPCServer.setup of <RPCServer object>> must declare a parameter 'reply_fun' that must be invoked to reply to an invokation." /\
  acks (trace run) = [basic_ack 7] /\
  entered (trace run) = [].
Proof.
  intros run.
  destruct (reply_fun_must_be_declared
              (arrives (request "setup" ∅)) text_bytes plain_server
              delivery expects_reply [] "R"
              {[ "method" := JStr "setup"; "args" := JObj ∅ ]} "setup"
              (Build_callable
                 (bound_method "RPCServer.setup" "<RPCServer object>")
                 ["self"] [param "routing_key"; param "queue_name"] true
                 (fun _ _ => mret tt))
              eq_refl eq_refl eq_refl eq_refl eq_refl) as [_ Hrefused].
  - cbn. rewrite !not_elem_of_cons. repeat split; [discriminate..|].
    apply not_elem_of_nil.
  - apply (Hrefused (JObj ∅)). reflexivity.
Defined.

(** ** Method resolution *)

Lemma getattr_None_ (self : gmap string attribute) (attr : string) :
  getattr self attr = None_ <-> self !! attr = None \/ self !! attr = Some None_.
Proof.
  unfold getattr. destruct (self !! attr) as [v|]; cbn.
  - split; [intros ->; by right|]. intros [Hn|Hs]; congruence.
  - split; [by left|done].
Qed.

(** C10, as stated, fails twice: an attribute whose value is [None] is an
    attribute of the instance and yet is answered as unknown; and
    [start_serving] resolves but is refused by a later check, so that it
    is not entered. *)
Lemma resolution_is_not_membership :
  let run self request :=
    serve (arrives request) text_bytes self delivery expects_reply [] in
  (subclass_server !! "state" = Some None_ /\
   run subclass_server (request "state" ∅)
     = error_reply text_bytes delivery "R" (Some "C")
         "Method specified does not exist: state.") /\
  (run plain_server (request "start_serving" ∅)
     = error_reply text_bytes delivery "R" (Some "C")
         "Method <bound method RPCServer.start_serving of <RPCServer object>> must declare a parameter 'reply_fun' that must be invoked to reply to an invokation." /\
   entered (trace (run plain_server (request "start_serving" ∅))) = []).
Proof. repeat split; vm_compute; reflexivity. Qed.

(** C10, amended: the method is looked up with [getattr(self, name, None)]
    among all attributes of the instance.  The unknown-method reply is
    produced when the name is no attribute or an attribute whose value is
    [None], and for no other attribute, whether [args] is given or not:
    exactly then, as far as the reply can tell (the encoding keeps error
    texts apart and the callable prints as Python objects do, between
    angle brackets).  Any other attribute passes on to the check of
    [args].  On an [RPCServer], [serve], [setup] and [start_serving] are
    resolved, then refused for declaring no [reply_fun], and are not
    entered. *)
Theorem method_resolution decode_json encode_json self method props body
    R members server_method :
  decode_json body = Ok (JObj members) ->
  reply_to props = Some R ->
  members !! "method" = Some (JStr server_method) ->
  let run := serve decode_json encode_json self method props body in
  let refuse := error_reply encode_json method R (correlation_id props) in
  let unknown := "Method specified does not exist: " +:+ server_method +:+ "." in
  (self !! server_method = None \/ self !! server_method = Some None_ ->
   run = refuse unknown) /\
  ((forall text text',
      encode_json (error text) = encode_json (error text') -> text = text') ->
   (forall method_op,
      self !! server_method = Some (Callable method_op) ->
      String.prefix "<" (repr method_op) = true) ->
   (run = refuse unknown
    <-> self !! server_method = None \/ self !! server_method = Some None_)) /\
  (forall v,
     self !! server_method = Some v -> v ≠ None_ ->
     members !! "args" = None ->
     run = refuse "Message received does not have arguments in attribute args.") /\
  (forall obj inherited broker_side args,
     self = RPCServer obj inherited broker_side ->
     server_method ∈ ["serve"; "setup"; "start_serving"] ->
     members !! "args" = Some args ->
     exists method_op,
       getattr self server_method = Callable method_op /\
       run = refuse ("Method " +:+ repr method_op +:+
                     " must declare a parameter 'reply_fun' that must be invoked to reply to an invokation.") /\
       entered (trace run) = []).
Proof.
  intros Hdec HR Hm run refuse unknown.
  assert (self !! server_method = None \/ self !! server_method = Some None_ ->
          run = refuse unknown) as Hunknown.
  { intros Hnone. subst run refuse unknown.
    eapply serve_unknown_method; [done..|]. by apply getattr_None_. }
  split; [exact Hunknown|]. split; [|split].
  - intros Hinj Hrepr. split; [|exact Hunknown]. intros Hrun.
    destruct (self !! server_method) as [v|] eqn:Hv; [|by left].
    assert (v = None_ \/ v ≠ None_) as [->|Hne]
      by (destruct v; [by left|by right..]).
    { by right. }
    exfalso.
    assert (getattr self server_method = v) as Ha
      by (unfold getattr; by rewrite Hv).
    destruct (serve_resolved_cases decode_json encode_json self method props
                body R members server_method Hdec HR Hm)
      as [[e He]|[Hargs|[(method_op & Ha' & Hr)|[[x Hx]|Hentered]]]].
    + by rewrite Ha.
    + fold run in He. by rewrite Hrun in He.
    + fold run refuse in Hargs. rewrite Hrun in Hargs.
      apply (error_reply_inj _ _ _ _ _ _ Hinj) in Hargs.
      subst unknown. cbn in Hargs. discriminate Hargs.
    + fold run refuse in Hr. rewrite Hrun in Hr.
      apply (error_reply_inj _ _ _ _ _ _ Hinj) in Hr.
      assert (v = Callable method_op) as Hcallable by congruence.
      pose proof (Hrepr method_op (f_equal Some Hcallable)) as Hp.
      destruct (repr method_op) as [|a r]; [discriminate Hp|].
      cbn [String.prefix] in Hp.
      destruct (Ascii.ascii_dec _ a) as [<-|]; [|discriminate Hp].
      subst unknown. cbn in Hr. discriminate Hr.
    + fold run refuse in Hx. rewrite Hrun in Hx.
      apply (error_reply_inj _ _ _ _ _ _ Hinj) in Hx.
      subst unknown. cbn in Hx. discriminate Hx.
    + fold run in Hentered. by rewrite Hrun in Hentered.
  - intros v Hv Hne Hargs. subst run refuse.
    eapply serve_no_args; [done..| |done].
    unfold getattr. by rewrite Hv.
  - intros obj inherited broker_side args -> Hin Hargs.
    assert (exists method_op,
               getattr (RPCServer obj inherited broker_side) server_method
                 = Callable method_op /\
               introspectable method_op = true /\
               "reply_fun" ∉ name <$> parameters method_op)
      as (method_op & Ha & Hi & Hr).
    { rewrite !elem_of_cons, elem_of_nil in Hin.
      destruct Hin as [->|[->|[->|[]]]]; eexists;
        (split; [by apply RPCServer_lookup|]); (split; [done|]); cbn;
        rewrite ?not_elem_of_cons; repeat split;
        (discriminate || apply not_elem_of_nil). }
    exists method_op. split; [done|]. subst run refuse.
    by erewrite serve_no_reply_fun.
Qed.

Lemma text_bytes_error_inj (text text' : string) :
  text_bytes (error text) = text_bytes (error text') -> text = text'.
Proof.
  intros H.
  assert (forall t, text_bytes (error t) = String.list_byte_of_string t) as He
    by reflexivity.
  rewrite !He in H.
  apply (f_equal String.string_of_list_byte) in H.
  by rewrite !String.string_of_list_byte_of_string in H.
Qed.

Lemma method_resolution_witness :
  let run server_method :=
    serve (arrives (request server_method ∅)) text_bytes subclass_server
      delivery expects_reply [] in
  let unknown server_method :=
    error_reply text_bytes delivery "R" (Some "C")
      ("Method specified does not exist: " +:+ server_method +:+ ".") in
  run "state" = unknown "state" /\
  run "double" ≠ unknown "double".
Proof.
  intros run unknown. split.
  - destruct (method_resolution
                (arrives (request "state" ∅)) text_bytes subclass_server
                delivery expects_reply [] "R"
                {[ "method" := JStr "state"; "args" := JObj ∅ ]} "state"
                eq_refl eq_refl eq_refl) as [Hunknown _].
    apply Hunknown. right. reflexivity.
  - destruct (method_resolution
                (arrives (request "double" ∅)) text_bytes subclass_server
                delivery expects_reply [] "R"
                {[ "method" := JStr "double"; "args" := JObj ∅ ]} "double"
                eq_refl eq_refl eq_refl) as (_ & Hiff & _).
    intros Hrun. apply Hiff in Hrun.
    + destruct Hrun as [Hrun|Hrun]; vm_compute in Hrun; discriminate Hrun.
    + exact text_bytes_error_inj.
    + intros method_op [= <-]. reflexivity.
Defined.

(** * Further properties of [serve] *)

(** ** Which exceptions leave [serve] *)

Lemma for_arg_name_cases_raise reply args continue names :
  (Forall (passes args) names /\
   for_arg_name reply args names continue = continue) \/
  (exists text, for_arg_name reply args names continue
                = (emit (log WARNING);; reply (error text))) \/
  for_arg_name reply args names continue = (Raise TypeError, []).
Proof.
  induction names as [|arg_name rest IH]; [left; by split|].
  cbn [for_arg_name].
  destruct (decide (arg_name = "reply_fun")) as [->|Hne].
  - rewrite bool_decide_eq_false_2 by (by intros ?). rewrite bind_ret.
    destruct IH as [[Hp Heq]|IH]; [left|by right].
    split; [|done]. apply Forall_cons_2; [by intros ?|done].
  - rewrite bool_decide_eq_true_2 by done.
    destruct (contains arg_name args) as [[]|e] eqn:Hc.
    + rewrite bind_lift_ok. cbn [negb]. rewrite bind_ret.
      destruct IH as [[Hp Heq]|IH]; [left|by right].
      split; [|done]. apply Forall_cons_2; [by intros ?|done].
    + rewrite bind_lift_ok. cbn [negb]. rewrite bind_ret.
      right; left. by eexists.
    + right; right. by rewrite (contains_raises _ _ _ Hc).
Qed.

Section Decoded.

Variable decode_json : bytes -> result json.
Variable encode_json : json -> bytes.
Variable self : gmap string attribute.
Variable method : Deliver.
Variable props : BasicProperties.
Variable body : bytes.
Variable body_json : json.
Hypothesis Hdecode : decode_json body = Ok body_json.

(** Once the payload is decoded, [serve] ends in one of four ways; when
    it raises before a method is entered, it is with [TypeError] or
    [ValueError], after the three debug lines. *)
Lemma serve_decoded_cases :
  (exists e, (e = TypeError \/ e = ValueError) /\
     serve decode_json encode_json self method props body
       = (Raise e, [log DEBUG; log DEBUG; log DEBUG])) \/
  ignored decode_json encode_json self method props body \/
  refused decode_json encode_json self method props body \/
  called decode_json encode_json self method props body.
Proof.
  destruct (reply_to props) as [R|] eqn:HR; cycle 1.
  { right; left. split; [done|]. by eapply serve_no_reply_to. }
  assert (Hrefused : forall text,
             serve decode_json encode_json self method props body
               = error_reply encode_json method R (correlation_id props) text
             -> refused decode_json encode_json self method props body).
  { intros text He. exists R, text. by rewrite <- HR. }
  destruct (contains METHOD_ATTRIBUTE body_json) as [[]|e] eqn:Hc; cycle 1.
  { right; right; left. eapply Hrefused. by eapply serve_no_method. }
  { left. exists TypeError. split; [by left|].
    rewrite (contains_raises _ _ _ Hc) in Hc. by eapply serve_not_a_container. }
  destruct body_json as [| | | |s|items|members].
  1-4: discriminate Hc.
  1-2: left; exists TypeError; (split; [by left|]); unfold serve;
       rewrite Hdecode, HR; cbn -[contains]; by rewrite Hc.
  cbn in Hc. injection Hc as Hc. apply bool_decide_eq_true in Hc as [v Hm].
  assert ((exists s, v = JStr s) \/ (forall s, v ≠ JStr s))
    as [[server_method ->]|Hv] by (destruct v; eauto).
  2: { left. exists TypeError. split; [by left|].
       by eapply serve_method_not_str. }
  destruct (getattr self server_method) as [| |method_op] eqn:Ha.
  { right; right; left. eapply Hrefused. by eapply serve_unknown_method. }
  all: destruct (members !! "args") as [args|] eqn:Hargs.
  2,4: right; right; left; eapply Hrefused;
       eapply serve_no_args; [done..|by rewrite Ha|done].
  { left. exists TypeError. split; [by left|]. by eapply serve_not_callable. }
  destruct (introspectable method_op) eqn:Hi; cycle 1.
  { left. exists ValueError. split; [by right|]. by eapply serve_no_signature. }
  destruct (decide ("reply_fun" ∈ name <$> parameters method_op)) as [Hr|Hr];
    cycle 1.
  { right; right; left. eapply Hrefused. by eapply serve_no_reply_fun. }
  pose proof (serve_checks_arguments decode_json encode_json self method
                props body R HR members Hdecode server_method Hm args Hargs
                method_op Ha Hi Hr) as Hrun.
  destruct (for_arg_name_cases_raise
              (reply encode_json method R (correlation_id props)) args
              (call method_op args
                 (reply encode_json method R (correlation_id props)))
              (name <$> parameters method_op))
    as [[Hp Hloop]|[[text Hloop]|Hloop]]; cbv zeta in Hrun;
    rewrite Hloop in Hrun.
  - destruct (call_cases method_op
                (reply encode_json method R (correlation_id props)) args)
      as [Hcall|(kwargs & -> & Hcall)]; rewrite Hcall in Hrun.
    + left. exists TypeError. split; [by left|]. exact Hrun.
    + right; right; right. exists R, (JObj members), method_op, kwargs.
      repeat split; try done. by exists members, server_method.
  - right; right; left. apply (Hrefused text). exact Hrun.
  - left. exists TypeError. split; [by left|]. exact Hrun.
Qed.

End Decoded.

(** X9: the two subscripts of [serve] are guarded by its membership
    tests: once the payload is decoded, an exception that leaves [serve]
    before a method is entered is a [TypeError] or a [ValueError], never a
    [KeyError], and by then nothing has reached the channel. *)
Theorem serve_raises_no_KeyError decode_json encode_json self method props
    body body_json e :
  decode_json body = Ok body_json ->
  let run := serve decode_json encode_json self method props body in
  entered (trace run) = [] ->
  outcome run = Raise e ->
  (e = TypeError \/ e = ValueError) /\ transport (trace run) = [].
Proof.
  intros Hdec run Hentered Hraise.
  destruct (serve_decoded_cases decode_json encode_json self method props
              body body_json Hdec)
    as [(e' & He' & Hrun)|[[_ Hrun]|[(R & text & _ & Hrun)|Hcalled]]].
  - subst run. rewrite Hrun in Hraise |- *. by injection Hraise as <-.
  - subst run. by rewrite Hrun in Hraise.
  - subst run. by rewrite Hrun in Hraise.
  - by destruct (entered_called _ _ _ _ _ _ Hcalled).
Qed.

Lemma serve_raises_no_KeyError_witness :
  let run := serve (arrives (JObj {[ "method" := JInt 5 ]})) text_bytes
               plain_server delivery expects_reply [] in
  entered (trace run) = [] /\
  outcome run = Raise TypeError /\
  (TypeError = TypeError \/ TypeError = ValueError) /\
  transport (trace run) = [].
Proof.
  intros run. split; [reflexivity|]. split; [reflexivity|].
  apply (serve_raises_no_KeyError (arrives (JObj {[ "method" := JInt 5 ]}))
           text_bytes plain_server delivery expects_reply []
           (JObj {[ "method" := JInt 5 ]}) TypeError); reflexivity.
Defined.

(** ** What [serve] itself does on the channel *)

(** X1: as long as no method is entered, [serve] performs on the channel
    nothing, or one acknowledgement of the delivery at hand (no reply
    address), or one publish followed by that acknowledgement; the publish
    goes to the default exchange, to the reply address of the request, with
    its correlation id, and carries an error object. *)
Theorem serve_own_channel_use decode_json encode_json self method props body :
  let run := serve decode_json encode_json self method props body in
  entered (trace run) = [] ->
  transport (trace run) = [] \/
  (reply_to props = None /\
   transport (trace run) = [basic_ack (delivery_tag method)]) \/
  (exists R text,
     reply_to props = Some R /\
     transport (trace run)
       = [basic_publish "" R (correlation_id props) (encode_json (error text));
          basic_ack (delivery_tag method)]).
Proof.
  intros run Hentered.
  destruct (serve_cases decode_json encode_json self method props body)
    as [(e & t & Hrun & Ht)|[[HR Hrun]|[(R & text & HR & Hrun)|Hcalled]]].
  - left. subst run. rewrite Hrun. by destruct Ht as [->| ->].
  - right; left. subst run. by rewrite Hrun.
  - right; right. exists R, text. subst run. by rewrite Hrun.
  - by destruct (entered_called _ _ _ _ _ _ Hcalled).
Qed.

Lemma serve_own_channel_use_witness :
  let run := serve (arrives (request "nothing" ∅)) text_bytes plain_server
               delivery expects_reply [] in
  entered (trace run) = [] /\
  (transport (trace run) = [] \/
   (reply_to expects_reply = None /\
    transport (trace run) = [basic_ack (delivery_tag delivery)]) \/
   (exists R text,
      reply_to expects_reply = Some R /\
      transport (trace run)
        = [basic_publish "" R (correlation_id expects_reply)
             (text_bytes (error text));
           basic_ack (delivery_tag delivery)])).
Proof.
  intros run. split; [reflexivity|].
  apply (serve_own_channel_use (arrives (request "nothing" ∅)) text_bytes
           plain_server delivery expects_reply []). reflexivity.
Defined.

(** ** When a method is entered *)

(** X3: a method body is entered exactly when the payload decodes, a reply
    address is given, every check of [serve] has passed, [args] has no key
    [reply_fun], and the keyword call binds the parameters of the method. *)
Theorem method_entered_iff decode_json encode_json self method props body :
  entered (trace (serve decode_json encode_json self method props body)) ≠ []
  <->
  exists body_json method_op kwargs,
    decode_json body = Ok body_json /\
    is_Some (reply_to props) /\
    validated self body_json method_op (JObj kwargs) /\
    kwargs !! "reply_fun" = None /\
    binds (filled method_op) (parameters method_op) (keywords kwargs) = true.
Proof.
  split.
  - intros (R & body_json & method_op & kwargs & HR & Hdec & Hv & Hk & Hb & _)
      %entered_inv.
    exists body_json, method_op, kwargs. by rewrite HR.
  - intros (body_json & method_op & kwargs & Hdec & [R HR] & Hv & Hk & Hb).
    destruct Hv as (members & server_method & -> & Hm & Ha & Hargs
                    & Hi & Hr & Hp).
    erewrite serve_checks_arguments by done. cbv zeta.
    rewrite for_arg_name_passes by done.
    rewrite call_enters by done. by rewrite !trace_emit.
Qed.

(** X4: for a method declared like [echo], with ordinary parameters
    without default values of which one is [reply_fun], the body is entered
    exactly when the keys of [args] are the declared parameters other than
    [reply_fun]: no key may be missing and none may be added. *)
Theorem plain_method_entered_iff decode_json encode_json self method props
    body R members server_method method_op kwargs :
  decode_json body = Ok (JObj members) ->
  reply_to props = Some R ->
  members !! "method" = Some (JStr server_method) ->
  getattr self server_method = Callable method_op ->
  members !! "args" = Some (JObj kwargs) ->
  introspectable method_op = true ->
  "reply_fun" ∈ name <$> parameters method_op ->
  plain method_op ->
  entered (trace (serve decode_json encode_json self method props body)) ≠ []
  <->
  (forall k, is_Some (kwargs !! k)
             <-> k ∈ name <$> parameters method_op /\ k ≠ "reply_fun").
Proof.
  intros Hdec HR Hm Ha Hargs Hi Hr Hplain. split.
  - intros (R' & body_json & method_op' & kwargs' & _ & Hdec' & Hv & Hk & Hb & _)
      %entered_inv.
    rewrite Hdec in Hdec'. injection Hdec' as <-.
    destruct Hv as (members' & server_method' & [= <-] & Hm' & Ha' & Hargs'
                    & _ & _ & Hp).
    rewrite Hm in Hm'. injection Hm' as <-.
    rewrite Ha in Ha'. injection Ha' as <-.
    rewrite Hargs in Hargs'. injection Hargs' as <-.
    pose proof (proj1 (binds_plain _ _ _ Hplain) Hb) as Heq.
    intros k. split.
    + intros Hsome. split.
      * apply Heq, keywords_elem. by left.
      * intros ->. rewrite Hk in Hsome. by destruct Hsome.
    + intros [Hin Hne]. rewrite Forall_forall in Hp.
      pose proof (Hp k Hin Hne) as Hc. cbn in Hc. injection Hc as Hc.
      by apply bool_decide_eq_true in Hc.
  - intros Heq.
    assert (kwargs !! "reply_fun" = None) as Hk.
    { apply eq_None_not_Some. intros [_ Hne]%Heq. by apply Hne. }
    erewrite serve_checks_arguments by done. cbv zeta.
    rewrite for_arg_name_passes.
    + rewrite call_enters; [by rewrite !trace_emit|done|].
      apply binds_plain; [done|]. intros k. rewrite keywords_elem. split.
      * intros [Hsome| ->]; [by apply Heq|done].
      * intros Hin. destruct (decide (k = "reply_fun")) as [->|Hne];
          [by right|left]. by apply Heq.
    + apply Forall_forall. intros k Hin Hne. cbn.
      rewrite bool_decide_eq_true_2; [done|]. by apply Heq.
Qed.

Lemma plain_method_entered_iff_witness :
  entered (trace (serve (arrives (request "double" {[ "x" := JInt 2 ]}))
                    text_bytes subclass_server delivery expects_reply [])) ≠ []
  <->
  (forall k, is_Some (({[ "x" := JInt 2 ]} : gmap string json) !! k)
             <-> k ∈ ["x"; "reply_fun"] /\ k ≠ "reply_fun").
Proof.
  apply (plain_method_entered_iff
           (arrives (request "double" {[ "x" := JInt 2 ]})) text_bytes
           subclass_server delivery expects_reply [] "R"
           {[ "method" := JStr "double"; "args" := JObj {[ "x" := JInt 2 ]} ]}
           "double"
           (Build_callable "<bound method Doubler.double of <Doubler object>>"
              ["self"] [param "x"; param "reply_fun"] true double_body)
           {[ "x" := JInt 2 ]}); try reflexivity.
  - cbn. rewrite !elem_of_cons. auto.
  - apply Forall_cons_2; [by split|apply Forall_cons_2; [by split|]].
    apply Forall_nil_2.
Defined.

(** X5: [reply_fun] is not for the client to give: a request whose [args]
    has a key [reply_fun] enters no method; when it passes every check of
    [serve], the call raises [TypeError] and the channel sees neither a
    reply nor an acknowledgement. *)
Theorem reply_fun_key_is_rejected decode_json encode_json self method props
    body members kwargs :
  decode_json body = Ok (JObj members) ->
  members !! "args" = Some (JObj kwargs) ->
  is_Some (kwargs !! "reply_fun") ->
  let run := serve decode_json encode_json self method props body in
  entered (trace run) = [] /\
  (forall R method_op,
     reply_to props = Some R ->
     validated self (JObj members) method_op (JObj kwargs) ->
     run = (Raise TypeError, [log DEBUG; log DEBUG; log DEBUG])).
Proof.
  intros Hdec Hargs Hsome run. split.
  - destruct (entered (trace run)) as [|e t] eqn:Hentered; [done|]. exfalso.
    destruct (entered_inv decode_json encode_json self method props body)
      as (R & body_json & method_op & kwargs' & _ & Hdec' & Hv & Hk & _).
    { subst run. by rewrite Hentered. }
    rewrite Hdec in Hdec'. injection Hdec' as <-.
    destruct Hv as (members' & server_method & [= <-] & _ & _ & Hargs' & _).
    rewrite Hargs in Hargs'. injection Hargs' as <-.
    rewrite Hk in Hsome. by destruct Hsome.
  - intros R method_op HR
      (members' & server_method & [= <-] & Hm & Ha & _ & Hi & Hr & Hp).
    subst run. erewrite serve_checks_arguments by done. cbv zeta.
    rewrite for_arg_name_passes by done.
    rewrite call_fails; [done|by left].
Qed.

Lemma reply_fun_key_is_rejected_witness :
  let args : gmap string json :=
    {[ "msg" := JStr "hi"; "reply_fun" := JStr "mine" ]} in
  let run := serve (arrives (request "echo" args)) text_bytes plain_server
               delivery expects_reply [] in
  entered (trace run) = [] /\
  run = (Raise TypeError, [log DEBUG; log DEBUG; log DEBUG]).
Proof.
  intros args run.
  destruct (reply_fun_key_is_rejected
              (arrives (request "echo" args)) text_bytes plain_server
              delivery expects_reply []
              {[ "method" := JStr "echo"; "args" := JObj args ]} args
              eq_refl eq_refl) as [Hentered Hraise].
  { by exists (JStr "mine"). }
  split; [exact Hentered|].
  apply (Hraise "R"
           (Build_callable (bound_method "RPCServer.echo" "<RPCServer object>")
              ["self"] [param "msg"; param "reply_fun"] true echo_body) eq_refl).
  exists {[ "method" := JStr "echo"; "args" := JObj args ]}, "echo".
  repeat split.
  - cbn. rewrite !elem_of_cons. auto.
  - apply Forall_cons_2; [|apply Forall_cons_2; [|apply Forall_nil_2]].
    + intros _. reflexivity.
    + intros H. by destruct H.
Defined.

(** X6: when [args] is not an object, no method is entered.  If every
    declared parameter passes the membership test of the loop, as with a
    list or a string that contains every name, the loop is passed and the
    call raises [TypeError], nothing being published or acknowledged.
    Otherwise the first declared parameter that does not pass decides:
    the reply names it when [args] does not contain it, and [serve] raises
    [TypeError] when the test itself does (a number, a boolean, null).
    One of these cases always applies. *)
Theorem args_not_a_mapping decode_json encode_json self method props body
    R members server_method method_op args :
  decode_json body = Ok (JObj members) ->
  reply_to props = Some R ->
  members !! "method" = Some (JStr server_method) ->
  getattr self server_method = Callable method_op ->
  members !! "args" = Some args ->
  (forall kwargs, args ≠ JObj kwargs) ->
  introspectable method_op = true ->
  "reply_fun" ∈ name <$> parameters method_op ->
  let run := serve decode_json encode_json self method props body in
  let names := name <$> parameters method_op in
  let raised := (Raise TypeError, [log DEBUG; log DEBUG; log DEBUG]) in
  entered (trace run) = [] /\
  (Forall (passes args) names -> run = raised) /\
  (forall pre x rest,
     names = pre ++ x :: rest ->
     Forall (passes args) pre ->
     x ≠ "reply_fun" ->
     (contains x args = Ok false ->
      run = error_reply encode_json method R (correlation_id props)
              ("Message received does not specify argument " +:+ x +:+
               " in attribute args.")) /\
     (contains x args = Raise TypeError -> run = raised)) /\
  (Forall (passes args) names \/
   exists pre x rest,
     names = pre ++ x :: rest /\ Forall (passes args) pre /\
     x ≠ "reply_fun" /\
     (contains x args = Ok false \/ contains x args = Raise TypeError)).
Proof.
  intros Hdec HR Hm Ha Hargs Hnot Hi Hr run names raised.
  assert (Forall (passes args) names -> run = raised) as Hpassed.
  { intros Hp. subst run names raised.
    erewrite serve_checks_arguments by done. cbv zeta.
    rewrite for_arg_name_passes by done. by rewrite call_not_a_mapping. }
  assert (forall pre x rest,
            names = pre ++ x :: rest ->
            Forall (passes args) pre ->
            x ≠ "reply_fun" ->
            (contains x args = Ok false ->
             run = error_reply encode_json method R (correlation_id props)
                     ("Message received does not specify argument " +:+ x +:+
                      " in attribute args.")) /\
            (contains x args = Raise TypeError -> run = raised)) as Hfirst.
  { intros pre x rest Hnames Hp Hx. subst run names raised.
    split; intros Hc;
      erewrite serve_checks_arguments by done; cbv zeta; rewrite Hnames.
    - by erewrite for_arg_name_missing.
    - by erewrite for_arg_name_raises. }
  pose proof (names_split args names) as Hsplit.
  split; [|done].
  destruct Hsplit as [Hp|(pre & x & rest & Hnames & Hp & Hx & [Hc|Hc])].
  - by rewrite (Hpassed Hp).
  - by rewrite (proj1 (Hfirst pre x rest Hnames Hp Hx) Hc).
  - by rewrite (proj2 (Hfirst pre x rest Hnames Hp Hx) Hc).
Qed.

Lemma args_not_a_mapping_witness :
  let run args :=
    serve (arrives (JObj {[ "method" := JStr "double"; "args" := args ]}))
      text_bytes subclass_server delivery expects_reply [] in
  (entered (trace (run (JArr [JStr "x"]))) = [] /\
   run (JArr [JStr "x"])
     = (Raise TypeError, [log DEBUG; log DEBUG; log DEBUG])) /\
  run (JStr "y")
    = error_reply text_bytes delivery "R" (Some "C")
        "Message received does not specify argument x in attribute args." /\
  run (JInt 3) = (Raise TypeError, [log DEBUG; log DEBUG; log DEBUG]).
Proof.
  intros run. split; [|split].
  - destruct (args_not_a_mapping
                (arrives (JObj {[ "method" := JStr "double"; "args" := JArr [JStr "x"] ]}))
                text_bytes subclass_server delivery expects_reply [] "R"
                {[ "method" := JStr "double"; "args" := JArr [JStr "x"] ]}
                "double"
                (Build_callable
                   "<bound method Doubler.double of <Doubler object>>"
                   ["self"] [param "x"; param "reply_fun"] true double_body)
                (JArr [JStr "x"]))
      as (Hentered & Hpassed & _).
    1-5,7: reflexivity.
    + discriminate.
    + cbn. rewrite !elem_of_cons. auto.
    + split; [exact Hentered|]. apply Hpassed.
      apply Forall_cons_2; [|apply Forall_cons_2; [|apply Forall_nil_2]].
      * intros _. reflexivity.
      * intros H. by destruct H.
  - destruct (args_not_a_mapping
                (arrives (JObj {[ "method" := JStr "double"; "args" := JStr "y" ]}))
                text_bytes subclass_server delivery expects_reply [] "R"
                {[ "method" := JStr "double"; "args" := JStr "y" ]}
                "double"
                (Build_callable
                   "<bound method Doubler.double of <Doubler object>>"
                   ["self"] [param "x"; param "reply_fun"] true double_body)
                (JStr "y"))
      as (_ & _ & Hfirst & _).
    1-5,7: reflexivity.
    + discriminate.
    + cbn. rewrite !elem_of_cons. auto.
    + apply (Hfirst [] "x" ["reply_fun"]);
        [reflexivity|apply Forall_nil_2|discriminate|reflexivity].
  - destruct (args_not_a_mapping
                (arrives (JObj {[ "method" := JStr "double"; "args" := JInt 3 ]}))
                text_bytes subclass_server delivery expects_reply [] "R"
                {[ "method" := JStr "double"; "args" := JInt 3 ]}
                "double"
                (Build_callable
                   "<bound method Doubler.double of <Doubler object>>"
                   ["self"] [param "x"; param "reply_fun"] true double_body)
                (JInt 3))
      as (_ & _ & Hfirst & _).
    1-5,7: reflexivity.
    + discriminate.
    + cbn. rewrite !elem_of_cons. auto.
    + apply (Hfirst [] "x" ["reply_fun"]);
        [reflexivity|apply Forall_nil_2|discriminate|reflexivity].
Defined.

(** X7: a request that mentions [method] without being an object whose
    [method] is a string (a number, a string or a list containing
    ["method"], an object whose [method] is not a string) makes [serve]
    raise [TypeError] after its three debug lines: although a reply address
    is known, no error reply is published and the delivery is not
    acknowledged. *)
Theorem ill_typed_request_raises decode_json encode_json self method props
    body R body_json :
  decode_json body = Ok body_json ->
  reply_to props = Some R ->
  contains METHOD_ATTRIBUTE body_json ≠ Ok false ->
  (forall members server_method,
     body_json = JObj members ->
     members !! "method" ≠ Some (JStr server_method)) ->
  let run := serve decode_json encode_json self method props body in
  run = (Raise TypeError, [log DEBUG; log DEBUG; log DEBUG]) /\
  transport (trace run) = [] /\
  entered (trace run) = [].
Proof.
  intros Hdec HR Hc Hshape run.
  assert (run = (Raise TypeError, [log DEBUG; log DEBUG; log DEBUG])) as ->;
    [|done].
  subst run.
  destruct (contains METHOD_ATTRIBUTE body_json) as [[]|e] eqn:Hcontains;
    [|done|].
  - destruct body_json as [| | | |s|items|members].
    1-4: discriminate Hcontains.
    1-2: unfold serve; rewrite Hdec, HR; cbn -[contains];
         by rewrite Hcontains.
    cbn in Hcontains. injection Hcontains as Hcontains.
    apply bool_decide_eq_true in Hcontains as [v Hm].
    eapply serve_method_not_str; [done..|].
    intros s ->. by apply (Hshape members s).
  - rewrite (contains_raises _ _ _ Hcontains) in Hcontains.
    by eapply serve_not_a_container.
Qed.

Lemma ill_typed_request_raises_witness :
  let run := serve (arrives (JArr [JStr "method"; JStr "echo"])) text_bytes
               plain_server delivery expects_reply [] in
  run = (Raise TypeError, [log DEBUG; log DEBUG; log DEBUG]) /\
  transport (trace run) = [] /\
  entered (trace run) = [].
Proof.
  intros run.
  apply (ill_typed_request_raises
           (arrives (JArr [JStr "method"; JStr "echo"])) text_bytes
           plain_server delivery expects_reply [] "R"
           (JArr [JStr "method"; JStr "echo"])); try reflexivity.
  - discriminate.
  - discriminate.
Defined.

(** ** The call of the method *)

(** X10: once every check has passed and the call binds, [serve] hands
    over to the method: its outcome is the outcome of the method body, an
    exception of the body included, and the channel sees what the body does
    with the reply closure and nothing else; [serve] itself neither replies
    nor acknowledges. *)
Theorem serve_hands_over_to_the_method decode_json encode_json self method
    props body R body_json method_op kwargs :
  decode_json body = Ok body_json ->
  reply_to props = Some R ->
  validated self body_json method_op (JObj kwargs) ->
  kwargs !! "reply_fun" = None ->
  binds (filled method_op) (parameters method_op) (keywords kwargs) = true ->
  let run := serve decode_json encode_json self method props body in
  let handler := code method_op kwargs
                   (reply encode_json method R (correlation_id props)) in
  outcome run = outcome handler /\
  transport (trace run) = transport (trace handler) /\
  entered (trace run) = enter (repr method_op) kwargs :: entered (trace handler).
Proof.
  intros Hdec HR (members & server_method & -> & Hm & Ha & Hargs & Hi & Hr & Hp)
    Hk Hb run handler. subst run.
  erewrite serve_checks_arguments by done. cbv zeta.
  rewrite for_arg_name_passes by done. rewrite call_enters by done.
  fold handler. rewrite !outcome_emit, !trace_emit. by repeat split.
Qed.

Lemma serve_hands_over_to_the_method_witness :
  let run := serve (arrives (request "double" {[ "x" := JInt 2 ]}))
               text_bytes subclass_server delivery expects_reply [] in
  let handler := double_body {[ "x" := JInt 2 ]}
                   (reply text_bytes delivery "R" (Some "C")) in
  outcome run = outcome handler /\
  transport (trace run) = transport (trace handler) /\
  entered (trace run)
    = enter "<bound method Doubler.double of <Doubler object>>"
        {[ "x" := JInt 2 ]} :: entered (trace handler).
Proof.
  intros run handler.
  apply (serve_hands_over_to_the_method
           (arrives (request "double" {[ "x" := JInt 2 ]})) text_bytes
           subclass_server delivery expects_reply [] "R"
           (request "double" {[ "x" := JInt 2 ]})
           (Build_callable "<bound method Doubler.double of <Doubler object>>"
              ["self"] [param "x"; param "reply_fun"] true double_body)
           {[ "x" := JInt 2 ]}); try reflexivity.
  exists {[ "method" := JStr "double"; "args" := JObj {[ "x" := JInt 2 ]} ]},
         "double".
  repeat split.
  - cbn. rewrite !elem_of_cons. auto.
  - apply Forall_cons_2; [|apply Forall_cons_2; [|apply Forall_nil_2]].
    + intros _. reflexivity.
    + intros H. by destruct H.
Defined.

(** ** The methods of [RPCServer] itself *)

(** X2: [echo] replies its argument unchanged, whatever JSON value it is:
    on an [RPCServer], a request for [echo] with [args = {"msg": msg}]
    enters [echo] once, publishes the encoding of [msg] to the reply
    address with the correlation id of the request, then acknowledges the
    delivery.  Other keys of the payload do not matter. *)
Theorem echo_replies_its_argument decode_json encode_json obj inherited
    broker_side method props body R members msg :
  decode_json body = Ok (JObj members) ->
  reply_to props = Some R ->
  members !! "method" = Some (JStr "echo") ->
  members !! "args" = Some (JObj {[ "msg" := msg ]}) ->
  let run := serve decode_json encode_json
               (RPCServer obj inherited broker_side) method props body in
  outcome run = Ok tt /\
  transport (trace run)
    = [basic_publish "" R (correlation_id props) (encode_json msg);
       basic_ack (delivery_tag method)] /\
  entered (trace run)
    = [enter (bound_method "RPCServer.echo" obj) {[ "msg" := msg ]}].
Proof.
  intros Hdec HR Hm Hargs run. subst run.
  erewrite serve_checks_arguments; [| done | exact Hdec | exact Hm
    | exact Hargs | by apply RPCServer_lookup | reflexivity
    | cbn; rewrite !elem_of_cons; auto ].
  repeat split; reflexivity.
Qed.

Lemma echo_replies_its_argument_witness :
  let msg := JArr [JInt 1; JNull; JObj {[ "k" := JBool true ]}] in
  let run := serve (arrives (JObj {[ "method" := JStr "echo";
                                     "args" := JObj {[ "msg" := msg ]};
                                     "id" := JInt 4 ]}))
               text_bytes plain_server delivery expects_reply [] in
  outcome run = Ok tt /\
  transport (trace run)
    = [basic_publish "" "R" (Some "C") (text_bytes msg); basic_ack 7] /\
  entered (trace run)
    = [enter (bound_method "RPCServer.echo" "<RPCServer object>")
         {[ "msg" := msg ]}].
Proof.
  intros msg run.
  apply (echo_replies_its_argument
           (arrives (JObj {[ "method" := JStr "echo";
                             "args" := JObj {[ "msg" := msg ]};
                             "id" := JInt 4 ]}))
           text_bytes "<RPCServer object>" ∅ (fun _ _ _ => mret tt)
           delivery expects_reply [] "R"
           {[ "method" := JStr "echo"; "args" := JObj {[ "msg" := msg ]};
              "id" := JInt 4 ]} msg); reflexivity.
Defined.

(** X8: of the attributes that the class [RPCServer] gives its instances
    ([__init__], [setup], [start_serving], [serve], [echo] and the logger
    [_l]), a request can enter [echo] only, and only with [args] being
    exactly [{"msg": msg}]. *)
Theorem RPCServer_serves_only_echo decode_json encode_json obj inherited
    broker_side method props body members server_method :
  decode_json body = Ok (JObj members) ->
  members !! "method" = Some (JStr server_method) ->
  server_method ∈ ["__init__"; "setup"; "start_serving"; "serve"; "echo"; "_l"] ->
  entered (trace (serve decode_json encode_json
                    (RPCServer obj inherited broker_side) method props body))
    ≠ [] ->
  server_method = "echo" /\
  exists msg, members !! "args" = Some (JObj {[ "msg" := msg ]}).
Proof.
  intros Hdec Hm Hin
    (R & body_json & method_op & kwargs & _ & Hdec' & Hv & Hk & Hb & _)
    %entered_inv.
  rewrite Hdec in Hdec'. injection Hdec' as <-.
  destruct Hv as (members' & server_method' & [= <-] & Hm' & Ha & Hargs
                  & _ & Hr & _).
  rewrite Hm in Hm'. injection Hm' as <-.
  rewrite !elem_of_cons, elem_of_nil in Hin.
  destruct Hin as [->|[->|[->|[->|[->|[->|[]]]]]]].
  1-5: erewrite RPCServer_lookup in Ha by (done || reflexivity);
       injection Ha as <-; cbn in Hr, Hb.
  1-4: exfalso; rewrite ?elem_of_cons, elem_of_nil in Hr;
       by repeat destruct Hr as [Hr|Hr].
  - split; [done|].
    assert (forall k, k ∈ keywords kwargs <-> k ∈ ["msg"; "reply_fun"]) as Heq.
    { apply (binds_plain ["self"] [param "msg"; param "reply_fun"]); [|done].
      apply Forall_cons_2; [by split|apply Forall_cons_2; [by split|]].
      apply Forall_nil_2. }
    assert ("msg" ∈ keywords kwargs) as Hin by (apply Heq; by left).
    apply keywords_elem in Hin as [[msg Hmsg]|Hin]; [|discriminate].
    exists msg. rewrite Hargs. do 2 f_equal. apply map_eq. intros k.
    destruct (decide (k = "msg")) as [->|Hne].
    + by rewrite Hmsg, lookup_singleton_eq.
    + rewrite lookup_singleton_ne by done. apply eq_None_not_Some.
      intros Hsome.
      assert (k ∈ ["msg"; "reply_fun"]) as Hk'.
      { apply Heq, keywords_elem. by left. }
      rewrite !elem_of_cons, elem_of_nil in Hk'.
      destruct Hk' as [->|[->|[]]]; [done|].
      rewrite Hk in Hsome. by destruct Hsome.
  - exfalso. unfold getattr, RPCServer in Ha.
    by rewrite lookup_insert_eq in Ha.
Qed.

Lemma RPCServer_serves_only_echo_witness :
  "echo" = "echo" /\
  exists msg,
    ({[ "method" := JStr "echo"; "args" := JObj {[ "msg" := JStr "hi" ]} ]}
       : gmap string json) !! "args"
    = Some (JObj {[ "msg" := msg ]}).
Proof.
  apply (RPCServer_serves_only_echo
           (arrives (request "echo" {[ "msg" := JStr "hi" ]})) text_bytes
           "<RPCServer object>" ∅ (fun _ _ _ => mret tt)
           delivery expects_reply []
           {[ "method" := JStr "echo"; "args" := JObj {[ "msg" := JStr "hi" ]} ]}
           "echo"); [reflexivity|reflexivity| |].
  - rewrite !elem_of_cons. auto 10.
  - vm_compute. discriminate.
Defined.

(** ** What [serve] reads *)

(** X11: what [serve] does depends, for a decoded object, on its keys
    [method] and [args] only, and on the instance through the attribute
    that [method] names only: two deliveries that agree on these have the
    same outcome, make the same calls on the channel and enter the same
    method with the same arguments.  The log lines are left out of the
    statement: they print the whole payload. *)
Theorem serve_reads_method_and_args decode_json decode_json' encode_json
    self self' method props body body' members members' :
  decode_json body = Ok (JObj members) ->
  decode_json' body' = Ok (JObj members') ->
  members !! "method" = members' !! "method" ->
  members !! "args" = members' !! "args" ->
  (forall server_method,
     members !! "method" = Some (JStr server_method) ->
     getattr self server_method = getattr self' server_method) ->
  let run := serve decode_json encode_json self method props body in
  let run' := serve decode_json' encode_json self' method props body' in
  outcome run = outcome run' /\
  transport (trace run) = transport (trace run') /\
  entered (trace run) = entered (trace run').
Proof.
  intros Hdec Hdec' Hm Hargs Hself run run'.
  assert (run = run') as ->; [|done].
  subst run run'. unfold serve.
  rewrite Hdec, Hdec'. destruct (reply_to props) as [R|]; [|done]. cbn.
  unfold METHOD_ATTRIBUTE, ARGS_ATTRIBUTE. rewrite <- Hm, <- Hargs.
  destruct (members !! "method") as [[| | | |server_method| |]|]; try done.
  cbn. by rewrite <- (Hself server_method eq_refl).
Qed.

Lemma serve_reads_method_and_args_witness :
  let run := serve (arrives (request "echo" {[ "msg" := JStr "hi" ]}))
               text_bytes plain_server delivery expects_reply [] in
  let run' := serve (arrives (JObj {[ "method" := JStr "echo";
                                      "args" := JObj {[ "msg" := JStr "hi" ]};
                                      "id" := JInt 4 ]})) text_bytes
                subclass_server delivery expects_reply [] in
  outcome run = outcome run' /\
  transport (trace run) = transport (trace run') /\
  entered (trace run) = entered (trace run').
Proof.
  intros run run'.
  apply (serve_reads_method_and_args
           (arrives (request "echo" {[ "msg" := JStr "hi" ]}))
           (arrives (JObj {[ "method" := JStr "echo";
                             "args" := JObj {[ "msg" := JStr "hi" ]};
                             "id" := JInt 4 ]}))
           text_bytes plain_server subclass_server delivery expects_reply
           [] []
           {[ "method" := JStr "echo"; "args" := JObj {[ "msg" := JStr "hi" ]} ]}
           {[ "method" := JStr "echo"; "args" := JObj {[ "msg" := JStr "hi" ]};
              "id" := JInt 4 ]}); try reflexivity.
  intros server_method [= <-]. reflexivity.
Defined.
